(** * Session core of chrome-reader-mcp: McpContext and McpResponse

    A shallow embedding of [src/McpContext.ts] and [src/McpResponse.ts].
    The browser driver (Puppeteer), the file system and the logger are
    collaborators: they appear as an explicit [World] that every method
    threads, so that a method which throws half-way keeps the mutations it
    has already made, as the JavaScript does.

    Conventions
    - a JavaScript object with identity (Page, ElementHandle) is a [nat]
      naming the object; data read from it lives in the [Browser] record;
    - the counters [#nextPageId], [#nextSnapshotId] and [idCounter] are
      [nat]: the embedding covers the range in which the JavaScript doubles
      count exactly (below 2^53);
    - a thrown [Error] is a [JsError] carrying its message and cause. *)

From Stdlib Require Import String Ascii List Arith Lia Decimal DecimalString DecimalNat ZArith.
From stdpp Require Import gmap strings list fin_maps.

Local Open Scope string_scope.
#[local] Set Warnings "-register-all".

(** ** JavaScript strings *)

Module JsString.

Definition dquote : string := String (ascii_of_nat 34) EmptyString.
Definition newline : string := String (ascii_of_nat 10) EmptyString.
Definition underscore : ascii := ascii_of_nat 95.

(** [String(n)] and [`${n}`] for a non-negative integer. *)
Definition of_nat (n : nat) : string :=
  NilEmpty.string_of_uint (Nat.to_uint n).

(** [s.split(sep)] for a one-character separator. *)
Fixpoint split (sep : ascii) (s : string) : list string :=
  match s with
  | EmptyString => [EmptyString]
  | String c r =>
      if Ascii.eqb c sep then EmptyString :: split sep r
      else match split sep r with
           | [] => [String c EmptyString]
           | h :: t => String c h :: t
           end
  end.

(** [l.join(sep)]. *)
Fixpoint join (sep : string) (l : list string) : string :=
  match l with
  | [] => EmptyString
  | [x] => x
  | x :: rest => x +:+ sep +:+ join sep rest
  end.

(** Truthiness of a string value: every string but the empty one. *)
Definition truthy (s : string) : bool :=
  match s with EmptyString => false | String _ _ => true end.

Definition startsWith (s pre : string) : bool := String.prefix pre s.

(** [arr.push(x)]. *)
Definition push {A} (arr : list A) (x : A) : list A := arr ++ [x].

End JsString.

(** ** The accessibility tree supplied by the driver *)

(** [value?: string | number]; a number is an IEEE-754 double, carried by
    its bit pattern and never inspected. *)
Inductive AXValue : Type :=
| VString (s : string)
| VNumber (bits : Z).

(** [SerializedAXNode].  [ax_backend] names the DOM node that the node's
    [elementHandle()] closure resolves; [ax_attrs] are the remaining
    attributes, which the code only copies. *)
Inductive SerializedAXNode : Type := mkAX {
  ax_role : string;
  ax_name : option string;
  ax_value : option AXValue;
  ax_attrs : list (string * AXValue);
  ax_backend : nat;
  ax_children : option (list SerializedAXNode)
}.

(** [TextSnapshotNode extends SerializedAXNode]: the spread fields, [id],
    and [children], which is always an array. *)
Inductive TextSnapshotNode : Type := mkTS {
  ts_role : string;
  ts_name : option string;
  ts_value : option AXValue;
  ts_attrs : list (string * AXValue);
  ts_backend : nat;
  ts_id : string;
  ts_children : list TextSnapshotNode
}.

Record TextSnapshot : Type := mkSnapshot {
  root : TextSnapshotNode;
  idToNode : gmap string TextSnapshotNode;
  snapshotId : string;
  selectedElementUid : option string;
  hasSelectedElement : bool;
  verbose : bool
}.

(** Nodes of a tree in depth-first pre-order. *)
Fixpoint ax_preorder (n : SerializedAXNode) : list SerializedAXNode :=
  n :: match ax_children n with
       | Some cs => flat_map ax_preorder cs
       | None => []
       end.

Fixpoint ts_preorder (n : TextSnapshotNode) : list TextSnapshotNode :=
  n :: flat_map ts_preorder (ts_children n).

(** ** assignIds (the closure inside [createTextSnapshot]) *)

(** [cs.map(f)] for an [f] that mutates captured variables: elements are
    visited left to right and the state is threaded through. *)
Definition map_st {A B S : Type} (f : A -> S -> B * S)
  : list A -> S -> list B * S :=
  fix go (l : list A) (st : S) : list B * S :=
    match l with
    | [] => ([], st)
    | a :: l' =>
        let '(b, st1) := f a st in
        let '(bs, st2) := go l' st1 in
        (b :: bs, st2)
    end.

(** The variables [assignIds] closes over and mutates. *)
Record AssignState : Type := mkAssign {
  idCounter : nat;
  as_idToNode : gmap string TextSnapshotNode
}.

(** [`${snapshotId}_${idCounter}`]. *)
Definition uid_of (sid k : nat) : string :=
  JsString.of_nat sid +:+ "_" +:+ JsString.of_nat k.

(** The [value] of [nodeWithId] after the [role === 'option'] block. *)
Definition option_value (node : SerializedAXNode) : option AXValue :=
  if String.eqb (ax_role node) "option" then
    match ax_name node with
    | Some optionText =>
        if JsString.truthy optionText then Some (VString optionText)
        else ax_value node
    | None => ax_value node
    end
  else ax_value node.

Fixpoint assignIds (sid : nat) (node : SerializedAXNode) (st : AssignState)
  {struct node} : TextSnapshotNode * AssignState :=
  let id := uid_of sid (idCounter st) in
  let st1 := mkAssign (S (idCounter st)) (as_idToNode st) in
  let '(children, st2) :=
    match ax_children node with
    | Some cs => map_st (assignIds sid) cs st1
    | None => ([], st1)
    end in
  let nodeWithId :=
    {| ts_role := ax_role node;
       ts_name := ax_name node;
       ts_value := option_value node;
       ts_attrs := ax_attrs node;
       ts_backend := ax_backend node;
       ts_id := id;
       ts_children := children |} in
  (nodeWithId,
   mkAssign (idCounter st2) (<[ts_id nodeWithId := nodeWithId]> (as_idToNode st2))).

(** ** Collaborators: the browser driver, the file system, the logger *)

Definition Page : Type := nat.
Definition ElementHandle : Type := nat.

Inductive JsError : Type :=
| Err (message : string) (cause : option JsError).

Inductive DialogType : Type := alert | confirm | prompt | beforeunload.

Definition DialogType_to_string (t : DialogType) : string :=
  match t with
  | alert => "alert"
  | confirm => "confirm"
  | prompt => "prompt"
  | beforeunload => "beforeunload"
  end.

Record Dialog : Type := mkDialog {
  dialog_type : DialogType;
  dialog_message : string;
  dialog_defaultValue : string
}.

(** What the session reads from and requests of the driver.
    - [browser_pages arg] is the result of [browser.pages(arg)], in
      discovery order;
    - [page_dialogListeners p] counts the registrations of the session's
      [#dialogHandler] on [p] (an EventEmitter keeps one entry per [on]);
    - [page_emulateFocusFails p] is the rejection, if any, of
      [p.emulateFocusedPage(_)];
    - [page_accessibility_snapshot p interestingOnly] is the result of
      [p.accessibility.snapshot({includeIframes: true, interestingOnly})];
    - [resolveNode k] is the result of [elementHandle()] on a node whose
      DOM back-reference is [k];
    - [closeRequests] records the [page.close] calls with their
      [runBeforeUnload] option. *)
Record Browser : Type := mkBrowser {
  browser_pages : option bool -> list Page;
  page_url : Page -> string;
  page_isClosed : Page -> bool;
  page_dialogListeners : Page -> nat;
  page_focusEmulation : Page -> option bool;
  page_emulateFocusFails : Page -> option JsError;
  page_defaultTimeout : Page -> option N;
  page_defaultNavigationTimeout : Page -> option N;
  page_accessibility_snapshot : Page -> bool -> option SerializedAXNode;
  resolveNode : nat -> option ElementHandle;
  closeRequests : list (Page * bool)
}.

(** [node:fs/promises] and [node:path] as far as [saveFile] uses them:
    [fs_writeFails p] is the error [fs.writeFile] rejects with at [p]. *)
Record FileSystem : Type := mkFS {
  fs_files : gmap string (list Byte.byte);
  fs_writeFails : string -> option JsError;
  path_resolve : string -> string
}.

Inductive LogArg : Type :=
| LogText (s : string)
| LogError (e : JsError).

(** ** The session *)

Record McpContextOptions : Type := mkOptions {
  experimentalDevToolsDebugging : bool;
  experimentalIncludeAllPages : option bool
}.

Record McpContext : Type := mkContext {
  pages : list Page;
  selectedPage : option Page;
  textSnapshot : option TextSnapshot;
  dialog : option Dialog;
  pageIdMap : gmap Page nat;
  nextPageId : nat;
  nextSnapshotId : nat;
  options : McpContextOptions
}.

Record World : Type := mkWorld {
  ctx : McpContext;
  browser : Browser;
  fs : FileSystem;
  logged : list (list LogArg)
}.

(** The outcome of a call: a value, or a thrown error. *)
Inductive Completion (A : Type) : Type :=
| Return (a : A)
| Throw (e : JsError).
Arguments Return {A} a.
Arguments Throw {A} e.

(** A method: it reads and mutates the world and completes. *)
Definition M (A : Type) : Type := World -> Completion A * World.

Definition ret {A} (a : A) : M A := fun w => (Return a, w).
Definition throw {A} (e : JsError) : M A := fun w => (Throw e, w).
Definition bind {A B} (m : M A) (k : A -> M B) : M B :=
  fun w =>
    match m w with
    | (Return a, w1) => k a w1
    | (Throw e, w1) => (Throw e, w1)
    end.
Definition get : M World := fun w => (Return w, w).
Definition modify (f : World -> World) : M unit := fun w => (Return tt, f w).
(** [try { m } catch (err) { h err }]. *)
Definition try_catch {A} (m : M A) (h : JsError -> M A) : M A :=
  fun w =>
    match m w with
    | (Return a, w1) => (Return a, w1)
    | (Throw e, w1) => h e w1
    end.

Notation "'let*' x ':=' m 'in' k" := (bind m (fun x => k))
  (at level 10, x name, m at level 100, k at level 200).

(** Field updates. *)
Definition upd {V} (f : Page -> V) (p : Page) (v : V) : Page -> V :=
  fun q => if Nat.eqb q p then v else f q.

Definition with_ctx (f : McpContext -> McpContext) (w : World) : World :=
  mkWorld (f (ctx w)) (browser w) (fs w) (logged w).
Definition with_browser (f : Browser -> Browser) (w : World) : World :=
  mkWorld (ctx w) (f (browser w)) (fs w) (logged w).
Definition with_fs (f : FileSystem -> FileSystem) (w : World) : World :=
  mkWorld (ctx w) (browser w) (f (fs w)) (logged w).

Definition set_pages (v : list Page) (c : McpContext) : McpContext :=
  mkContext v (selectedPage c) (textSnapshot c) (dialog c) (pageIdMap c)
            (nextPageId c) (nextSnapshotId c) (options c).
Definition set_selectedPage (v : option Page) (c : McpContext) : McpContext :=
  mkContext (pages c) v (textSnapshot c) (dialog c) (pageIdMap c)
            (nextPageId c) (nextSnapshotId c) (options c).
Definition set_textSnapshot (v : option TextSnapshot) (c : McpContext) : McpContext :=
  mkContext (pages c) (selectedPage c) v (dialog c) (pageIdMap c)
            (nextPageId c) (nextSnapshotId c) (options c).
Definition set_dialog (v : option Dialog) (c : McpContext) : McpContext :=
  mkContext (pages c) (selectedPage c) (textSnapshot c) v (pageIdMap c)
            (nextPageId c) (nextSnapshotId c) (options c).
Definition set_pageIdMap (v : gmap Page nat) (c : McpContext) : McpContext :=
  mkContext (pages c) (selectedPage c) (textSnapshot c) (dialog c) v
            (nextPageId c) (nextSnapshotId c) (options c).
Definition set_nextPageId (v : nat) (c : McpContext) : McpContext :=
  mkContext (pages c) (selectedPage c) (textSnapshot c) (dialog c) (pageIdMap c)
            v (nextSnapshotId c) (options c).
Definition set_nextSnapshotId (v : nat) (c : McpContext) : McpContext :=
  mkContext (pages c) (selectedPage c) (textSnapshot c) (dialog c) (pageIdMap c)
            (nextPageId c) v (options c).

(** Requests to the driver. *)
Definition page_off_dialog (p : Page) (b : Browser) : Browser :=
  mkBrowser (browser_pages b) (page_url b) (page_isClosed b)
    (upd (page_dialogListeners b) p (Nat.pred (page_dialogListeners b p)))
    (page_focusEmulation b) (page_emulateFocusFails b)
    (page_defaultTimeout b) (page_defaultNavigationTimeout b)
    (page_accessibility_snapshot b) (resolveNode b) (closeRequests b).

Definition page_on_dialog (p : Page) (b : Browser) : Browser :=
  mkBrowser (browser_pages b) (page_url b) (page_isClosed b)
    (upd (page_dialogListeners b) p (S (page_dialogListeners b p)))
    (page_focusEmulation b) (page_emulateFocusFails b)
    (page_defaultTimeout b) (page_defaultNavigationTimeout b)
    (page_accessibility_snapshot b) (resolveNode b) (closeRequests b).

Definition page_set_focusEmulation (p : Page) (v : bool) (b : Browser) : Browser :=
  mkBrowser (browser_pages b) (page_url b) (page_isClosed b)
    (page_dialogListeners b)
    (upd (page_focusEmulation b) p (Some v)) (page_emulateFocusFails b)
    (page_defaultTimeout b) (page_defaultNavigationTimeout b)
    (page_accessibility_snapshot b) (resolveNode b) (closeRequests b).

Definition page_setDefaultTimeout (p : Page) (t : N) (b : Browser) : Browser :=
  mkBrowser (browser_pages b) (page_url b) (page_isClosed b)
    (page_dialogListeners b)
    (page_focusEmulation b) (page_emulateFocusFails b)
    (upd (page_defaultTimeout b) p (Some t)) (page_defaultNavigationTimeout b)
    (page_accessibility_snapshot b) (resolveNode b) (closeRequests b).

Definition page_setDefaultNavigationTimeout (p : Page) (t : N) (b : Browser) : Browser :=
  mkBrowser (browser_pages b) (page_url b) (page_isClosed b)
    (page_dialogListeners b)
    (page_focusEmulation b) (page_emulateFocusFails b)
    (page_defaultTimeout b) (upd (page_defaultNavigationTimeout b) p (Some t))
    (page_accessibility_snapshot b) (resolveNode b) (closeRequests b).

(** [page.close({runBeforeUnload})]: the request is recorded; without
    unload hooks the page is gone from the driver's enumeration and
    reports closed. *)
Definition page_close (p : Page) (runBeforeUnload : bool) (b : Browser) : Browser :=
  mkBrowser
    (fun arg => if runBeforeUnload then browser_pages b arg
                else List.filter (fun q => negb (Nat.eqb q p)) (browser_pages b arg))
    (page_url b)
    (if runBeforeUnload then page_isClosed b else upd (page_isClosed b) p true)
    (page_dialogListeners b)
    (page_focusEmulation b) (page_emulateFocusFails b)
    (page_defaultTimeout b) (page_defaultNavigationTimeout b)
    (page_accessibility_snapshot b) (resolveNode b)
    (closeRequests b ++ [(p, runBeforeUnload)]).

Definition logger (args : list LogArg) : M unit :=
  modify (fun w => mkWorld (ctx w) (browser w) (fs w) (logged w ++ [args])).

(** [void page.emulateFocusedPage(v).catch(error => this.logger(msg, error))]:
    a rejection is logged and never raised. *)
Definition emulateFocusedPage_logged (p : Page) (v : bool) (msg : string) : M unit :=
  let* w := get in
  match page_emulateFocusFails (browser w) p with
  | Some error => logger [LogText msg; LogError error]
  | None => modify (with_browser (page_set_focusEmulation p v))
  end.

(** ** Constants *)

(** [src/tools/ToolDefinition.ts]. *)
Definition CLOSE_PAGE_ERROR : string :=
  "The last open page cannot be closed. It is fine to keep it open.".

Definition DEFAULT_TIMEOUT : N := 5000%N.
Definition NAVIGATION_TIMEOUT : N := 10000%N.

(** The [name] of the tools [listPages], [takeSnapshot] and [handleDialog]
    ([src/tools/pages.ts] and [src/tools/snapshot.ts]), as the tool
    reference lists them. *)
Definition listPages_name : string := "list_pages".
Definition takeSnapshot_name : string := "take_snapshot".
Definition handleDialog_name : string := "handle_dialog".

Definition NO_PAGE_SELECTED : JsError := Err "No page selected" None.
Definition SELECTED_PAGE_CLOSED : JsError :=
  Err ("The selected page has been closed. Call " +:+ listPages_name
       +:+ " to see open pages.") None.
Definition NO_PAGE_FOUND : JsError := Err "No page found" None.
Definition NO_SNAPSHOT : JsError :=
  Err ("No snapshot found. Use " +:+ takeSnapshot_name +:+ " to capture one.") None.
Definition STALE_SNAPSHOT : JsError :=
  Err "This uid is coming from a stale snapshot. Call take_snapshot to get a fresh snapshot." None.
Definition NO_SUCH_ELEMENT : JsError :=
  Err "No such element found in the snapshot" None.
Definition SAVE_FAILED (cause : JsError) : JsError :=
  Err "Could not save a screenshot to a file" (Some cause).

(** ** McpContext *)

(** [new McpContext(browser, logger, options, locatorClass)]. *)
Definition new_McpContext (opts : McpContextOptions) : McpContext :=
  {| pages := [];
     selectedPage := None;
     textSnapshot := None;
     dialog := None;
     pageIdMap := ∅;
     nextPageId := 1;
     nextSnapshotId := 1;
     options := opts |}.

Definition getDialog (w : World) : option Dialog := dialog (ctx w).

Definition clearDialog : M unit := modify (with_ctx (set_dialog None)).

(** [#dialogHandler], run by the driver for a dialog event on a page that
    carries the listener. *)
Definition dialogHandler (d : Dialog) : M unit :=
  modify (with_ctx (set_dialog (Some d))).

Definition getSelectedPage : M Page :=
  let* w := get in
  match selectedPage (ctx w) with
  | None => throw NO_PAGE_SELECTED
  | Some page =>
      if page_isClosed (browser w) page then throw SELECTED_PAGE_CLOSED
      else ret page
  end.

Definition getPageId (w : World) (page : Page) : option nat :=
  pageIdMap (ctx w) !! page.

Definition isPageSelected (w : World) (page : Page) : bool :=
  match selectedPage (ctx w) with
  | Some q => Nat.eqb q page
  | None => false
  end.

Definition getPages (w : World) : list Page := pages (ctx w).

Definition option_nat_eqb (o : option nat) (n : nat) : bool :=
  match o with Some k => Nat.eqb k n | None => false end.

Definition getPageById (pageId : nat) : M Page :=
  let* w := get in
  match List.find (fun p => option_nat_eqb (pageIdMap (ctx w) !! p) pageId)
                  (pages (ctx w)) with
  | None => throw NO_PAGE_FOUND
  | Some page => ret page
  end.

Definition closePage (pageId : nat) : M unit :=
  let* w := get in
  if Nat.eqb (length (pages (ctx w))) 1 then throw (Err CLOSE_PAGE_ERROR None)
  else
    let* page := getPageById pageId in
    modify (with_browser (page_close page false)).

Definition updateSelectedPageTimeouts : M unit :=
  let* page := getSelectedPage in
  let* _ := modify (with_browser (page_setDefaultTimeout page DEFAULT_TIMEOUT)) in
  modify (with_browser (page_setDefaultNavigationTimeout page NAVIGATION_TIMEOUT)).

Definition selectPage (newPage : Page) : M unit :=
  let* w := get in
  let oldPage := selectedPage (ctx w) in
  let* _ :=
    match oldPage with
    | Some oldPage =>
        let* _ := modify (with_browser (page_off_dialog oldPage)) in
        emulateFocusedPage_logged oldPage false
          "Error turning off focused page emulation"
    | None => ret tt
    end in
  let* _ := modify (with_ctx (set_selectedPage (Some newPage))) in
  let* _ := modify (with_browser (page_on_dialog newPage)) in
  let* _ := updateSelectedPageTimeouts in
  emulateFocusedPage_logged newPage true
    "Error turning on focused page emulation".

(** The [for] loop of [createPagesSnapshot] over [allPages]. *)
Definition assignPageId (c : McpContext) (page : Page) : McpContext :=
  match pageIdMap c !! page with
  | Some _ => c
  | None =>
      set_nextPageId (S (nextPageId c))
        (set_pageIdMap (<[page := nextPageId c]> (pageIdMap c)) c)
  end.

Definition isVisible (opts : McpContextOptions) (b : Browser) (page : Page) : bool :=
  experimentalDevToolsDebugging opts
  || negb (JsString.startsWith (page_url b page) "devtools://").

Definition page_in (p : Page) (l : list Page) : bool :=
  existsb (Nat.eqb p) l.

Definition createPagesSnapshot : M (list Page) :=
  let* w := get in
  let allPages :=
    browser_pages (browser w) (experimentalIncludeAllPages (options (ctx w))) in
  let* _ := modify (with_ctx (fun c => fold_left assignPageId allPages c)) in
  let visible :=
    List.filter (isVisible (options (ctx w)) (browser w)) allPages in
  let* _ := modify (with_ctx (set_pages visible)) in
  let* w1 := get in
  let unselected :=
    match selectedPage (ctx w1) with
    | None => true
    | Some sel => negb (page_in sel (pages (ctx w1)))
    end in
  let* _ :=
    match unselected, pages (ctx w1) with
    | true, first :: _ => selectPage first
    | _, _ => ret tt
    end in
  let* w2 := get in
  ret (pages (ctx w2)).

Definition createTextSnapshot (verbose : bool) : M unit :=
  let* page := getSelectedPage in
  let* w := get in
  match page_accessibility_snapshot (browser w) page (negb verbose) with
  | None => ret tt
  | Some rootNode =>
      let snapshotId := nextSnapshotId (ctx w) in
      let* _ := modify (with_ctx (set_nextSnapshotId (S snapshotId))) in
      let '(rootNodeWithId, st) := assignIds snapshotId rootNode (mkAssign 0 ∅) in
      modify (with_ctx (set_textSnapshot (Some
        {| root := rootNodeWithId;
           snapshotId := JsString.of_nat snapshotId;
           idToNode := as_idToNode st;
           selectedElementUid := None;
           hasSelectedElement := false;
           verbose := verbose |})))
  end.

Definition getTextSnapshot (w : World) : option TextSnapshot :=
  textSnapshot (ctx w).

Definition uid_prefix (uid : string) : string :=
  match JsString.split JsString.underscore uid with
  | snapshotId :: _ => snapshotId
  | [] => EmptyString
  end.

Definition getElementByUid (uid : string) : M ElementHandle :=
  let* w := get in
  match textSnapshot (ctx w) with
  | None => throw NO_SNAPSHOT
  | Some snap =>
      if Nat.eqb (size (idToNode snap)) 0 then throw NO_SNAPSHOT
      else
        let snapshotId' := uid_prefix uid in
        if negb (String.eqb (snapshotId snap) snapshotId') then throw STALE_SNAPSHOT
        else
          match idToNode snap !! uid with
          | None => throw NO_SUCH_ELEMENT
          | Some node =>
              match resolveNode (browser w) (ts_backend node) with
              | None => throw NO_SUCH_ELEMENT
              | Some handle => ret handle
              end
          end
  end.

(** [fs.writeFile(filePath, data)]. *)
Definition fs_writeFile (filePath : string) (data : list Byte.byte) : M unit :=
  let* w := get in
  match fs_writeFails (fs w) filePath with
  | Some e => throw e
  | None =>
      modify (with_fs (fun f =>
        mkFS (<[filePath := data]> (fs_files f)) (fs_writeFails f) (path_resolve f)))
  end.

Definition saveFile (data : list Byte.byte) (filename : string) : M string :=
  try_catch
    (let* w := get in
     let filePath := path_resolve (fs w) filename in
     let* _ := fs_writeFile filePath data in
     ret filename)
    (fun err =>
       let* _ := logger [LogError err] in
       throw (SAVE_FAILED err)).

(** ** McpResponse *)

Record ImageContentData : Type := mkImage {
  image_data : string;
  image_mimeType : string
}.

Record SnapshotParams : Type := mkSnapshotParams {
  sp_verbose : option bool;
  sp_filePath : option string
}.

Record McpResponse : Type := mkResponse {
  includePages : bool;
  snapshotParams : option SnapshotParams;
  textResponseLines : list string;
  images : list ImageContentData
}.

Definition new_McpResponse : McpResponse :=
  {| includePages := false;
     snapshotParams := None;
     textResponseLines := [];
     images := [] |}.

Definition setIncludePages (value : bool) (r : McpResponse) : McpResponse :=
  mkResponse value (snapshotParams r) (textResponseLines r) (images r).

Definition includeSnapshot (params : option SnapshotParams) (r : McpResponse)
  : McpResponse :=
  mkResponse (includePages r)
    (Some (match params with
           | Some p => p
           | None => mkSnapshotParams (Some false) None
           end))
    (textResponseLines r) (images r).

Definition appendResponseLine (value : string) (r : McpResponse) : McpResponse :=
  mkResponse (includePages r) (snapshotParams r)
    (JsString.push (textResponseLines r) value) (images r).

Definition attachImage (value : ImageContentData) (r : McpResponse) : McpResponse :=
  mkResponse (includePages r) (snapshotParams r) (textResponseLines r)
    (JsString.push (images r) value).

(** [TextContent | ImageContent]. *)
Inductive Content : Type :=
| TextContent (text : string)
| ImageContent (data mimeType : string).

(** [`${x}`] for [x : number | undefined]. *)
Definition template_of_id (o : option nat) : string :=
  match o with
  | Some n => JsString.of_nat n
  | None => "undefined"
  end.

Definition dialog_notice (d : Dialog) : string :=
  let defaultValueIfNeeded :=
    match dialog_type d with
    | prompt => " (default value: " +:+ JsString.dquote +:+ dialog_defaultValue d
                +:+ JsString.dquote +:+ ")"
    | _ => ""
    end in
  "# Open dialog" +:+ JsString.newline
  +:+ DialogType_to_string (dialog_type d) +:+ ": " +:+ dialog_message d
  +:+ defaultValueIfNeeded +:+ "." +:+ JsString.newline
  +:+ "Call " +:+ handleDialog_name +:+ " to handle it before continuing.".

Definition page_line (w : World) (page : Page) : string :=
  template_of_id (getPageId w page) +:+ ": " +:+ page_url (browser w) page
  +:+ (if isPageSelected w page then " [selected]" else "").

(** [format]: the array [response] is built by successive [push]es. *)
Definition format (r : McpResponse) (toolName : string) (w : World)
  (formattedSnapshot : option string) : list Content :=
  let response := ["# " +:+ toolName +:+ " response"] in
  let response := fold_left JsString.push (textResponseLines r) response in
  let response :=
    match getDialog w with
    | Some d => JsString.push response (dialog_notice d)
    | None => response
    end in
  let response :=
    if includePages r then
      let parts := ["## Pages"] in
      let parts :=
        fold_left (fun parts page => JsString.push parts (page_line w page))
                  (getPages w) parts in
      fold_left JsString.push parts response
    else response in
  let response :=
    match formattedSnapshot with
    | Some text =>
        if JsString.truthy text then
          JsString.push (JsString.push response "## Latest page snapshot") text
        else response
    | None => response
    end in
  let text := TextContent (JsString.join JsString.newline response) in
  let images :=
    List.map (fun imageData =>
                ImageContent (image_data imageData) (image_mimeType imageData))
             (images r) in
  text :: images.

Section Handle.

(** [formatSnapshotNode] of [src/formatters/snapshotFormatter.ts], which
    renders a snapshot as text. *)
Variable formatSnapshotNode : TextSnapshotNode -> TextSnapshot -> string.

(** [new TextEncoder().encode(s)]: the bytes of the string. *)
Definition encode (s : string) : list Byte.byte := list_byte_of_string s.

Definition default_verbose (o : option bool) : bool :=
  match o with Some v => v | None => false end.

(** The part of [handle] that computes [formattedSnapshot]. *)
Definition handle_snapshot (r : McpResponse) : M (option string) :=
  match snapshotParams r with
  | None => ret None
  | Some params =>
      let* _ := createTextSnapshot (default_verbose (sp_verbose params)) in
      let* w := get in
      match getTextSnapshot w with
      | None => ret None
      | Some snapshot =>
          match sp_filePath params with
          | Some filePath =>
              if JsString.truthy filePath then
                let* _ := saveFile
                            (encode (formatSnapshotNode (root snapshot) snapshot))
                            filePath in
                ret (Some ("Saved snapshot to " +:+ filePath +:+ "."))
              else ret (Some (formatSnapshotNode (root snapshot) snapshot))
          | None => ret (Some (formatSnapshotNode (root snapshot) snapshot))
          end
      end
  end.

Definition handle (r : McpResponse) (toolName : string) : M (list Content) :=
  let* _ := if includePages r
            then (let* _ := createPagesSnapshot in ret tt)
            else ret tt in
  let* formattedSnapshot := handle_snapshot r in
  let* w := get in
  ret (format r toolName w formattedSnapshot).

End Handle.

(** ** Reachable worlds *)

(** A world just after [new McpContext]: the session's handler is a fresh
    closure, registered nowhere. *)
Definition fresh_world (opts : McpContextOptions) (b : Browser) (f : FileSystem)
  : World :=
  {| ctx := new_McpContext opts; browser := b; fs := f; logged := [] |}.

(** The worlds a session can be in: the methods of [McpContext] are called
    in any order, the driver delivers dialog events to a registered
    handler, and the browser and the file system change on their own (the
    handler's registrations are the session's alone to change). *)
Inductive Reachable : World -> Prop :=
| reach_new opts b f :
    (forall p, page_dialogListeners b p = 0) ->
    Reachable (fresh_world opts b f)
| reach_createPagesSnapshot w :
    Reachable w -> Reachable (snd (createPagesSnapshot w))
| reach_selectPage w page :
    Reachable w -> Reachable (snd (selectPage page w))
| reach_closePage w pageId :
    Reachable w -> Reachable (snd (closePage pageId w))
| reach_createTextSnapshot w verbose :
    Reachable w -> Reachable (snd (createTextSnapshot verbose w))
| reach_clearDialog w :
    Reachable w -> Reachable (snd (clearDialog w))
| reach_dialog_event w page d :
    Reachable w -> 0 < page_dialogListeners (browser w) page ->
    Reachable (snd (dialogHandler d w))
| reach_saveFile w data filename :
    Reachable w -> Reachable (snd (saveFile data filename w))
| reach_environment w b f :
    Reachable w ->
    (forall p, page_dialogListeners b p = page_dialogListeners (browser w) p) ->
    Reachable (mkWorld (ctx w) b f (logged w)).

(** ** The output layout and the id assignment, as specified *)

(** The composed text as the specification lays it out: header, lines,
    dialog notice, pages section, snapshot section. *)
Definition spec_header (toolName : string) : list string :=
  ["# " +:+ toolName +:+ " response"].

Definition spec_dialog_section (w : World) : list string :=
  match dialog (ctx w) with
  | Some d => [dialog_notice d]
  | None => []
  end.

Definition spec_pages_section (r : McpResponse) (w : World) : list string :=
  if includePages r
  then "## Pages" :: List.map (page_line w) (pages (ctx w))
  else [].

Definition spec_snapshot_section (formattedSnapshot : option string) : list string :=
  match formattedSnapshot with
  | Some text => if JsString.truthy text then ["## Latest page snapshot"; text] else []
  | None => []
  end.

Definition spec_text (r : McpResponse) (toolName : string) (w : World)
  (formattedSnapshot : option string) : string :=
  JsString.join JsString.newline
    (spec_header toolName ++ textResponseLines r ++ spec_dialog_section w
     ++ spec_pages_section r w ++ spec_snapshot_section formattedSnapshot).

Definition spec_images (r : McpResponse) : list Content :=
  List.map (fun i => ImageContent (image_data i) (image_mimeType i)) (images r).

(** The pages of an enumeration that have no id yet, each once, in
    discovery order; [known] holds the pages that have one. *)
Fixpoint newly_seen (known : gset Page) (l : list Page) : list Page :=
  match l with
  | [] => []
  | p :: l' =>
      if decide (p ∈ known) then newly_seen known l'
      else p :: newly_seen ({[p]} ∪ known) l'
  end.

(** ** Invariants of a session *)

(** The session's handler is registered once on the selected page and
    nowhere else. *)
Definition listeners_inv (w : World) : Prop :=
  forall p, page_dialogListeners (browser w) p
            = if isPageSelected w p then 1 else 0.

(** Before the first successful capture there is no snapshot and the
    counter is at its initial value; afterwards the snapshot holds at
    least one node and carries the last id issued. *)
Definition snapshot_inv (w : World) : Prop :=
  match textSnapshot (ctx w) with
  | None => nextSnapshotId (ctx w) = 1
  | Some snap =>
      size (idToNode snap) <> 0
      /\ exists k, snapshotId snap = JsString.of_nat k
                   /\ nextSnapshotId (ctx w) = S k /\ 1 <= k
  end.

(** Page ids are positive, below the counter, never shared, and every
    listed page has one. *)
Definition pageIds_inv (c : McpContext) : Prop :=
  1 <= nextPageId c
  /\ (forall p i, pageIdMap c !! p = Some i -> 1 <= i < nextPageId c)
  /\ (forall p q i, pageIdMap c !! p = Some i -> pageIdMap c !! q = Some i -> p = q)
  /\ (forall p, List.In p (pages c) -> exists i, pageIdMap c !! p = Some i).

Definition session_inv (w : World) : Prop :=
  listeners_inv w /\ snapshot_inv w /\ pageIds_inv (ctx w).

(** The session's page list is the filtered enumeration of the driver,
    which lists no page twice. *)
Definition in_sync (w : World) : Prop :=
  let allPages :=
    browser_pages (browser w) (experimentalIncludeAllPages (options (ctx w))) in
  List.NoDup allPages
  /\ pages (ctx w) = List.filter (isVisible (options (ctx w)) (browser w)) allPages.

(** What [assignIds] copies from a source node to its image. *)
Definition node_image (n : SerializedAXNode) (n' : TextSnapshotNode) : Prop :=
  ts_role n' = ax_role n /\ ts_name n' = ax_name n
  /\ ts_attrs n' = ax_attrs n /\ ts_backend n' = ax_backend n
  /\ ts_value n' = option_value n.

Fixpoint has_char (c : ascii) (s : string) : bool :=
  match s with
  | EmptyString => false
  | String a r => Ascii.eqb a c || has_char c r
  end.

Definition ax_descendants (n : SerializedAXNode) : list SerializedAXNode :=
  match ax_children n with
  | Some cs => flat_map ax_preorder cs
  | None => []
  end.

(** What a run of [assignIds] over a forest [src], from state [st], has
    done when it ends in [st'] with images [out]. *)
Definition assigned (sid : nat) (src : list SerializedAXNode) (st : AssignState)
  (out : list TextSnapshotNode) (st' : AssignState) : Prop :=
  idCounter st' = idCounter st + length src
  /\ List.map ts_id out = List.map (uid_of sid) (seq (idCounter st) (length src))
  /\ List.Forall2 node_image src out
  /\ (forall x, List.In x out -> as_idToNode st' !! ts_id x = Some x)
  /\ (forall u, ~ List.In u (List.map ts_id out) ->
                as_idToNode st' !! u = as_idToNode st !! u).

(** The rule for option nodes, as specified: an option node with a
    non-empty name has that name as its value; any other node keeps the
    value it had. *)
Definition spec_option_rule (n : SerializedAXNode) (n' : TextSnapshotNode) : Prop :=
  (forall text, ax_role n = "option" -> ax_name n = Some text ->
                text <> EmptyString -> ts_value n' = Some (VString text))
  /\ (ax_role n <> "option" \/ ax_name n = None \/ ax_name n = Some EmptyString ->
      ts_value n' = ax_value n).

(** ** Sample worlds *)

Module Sample.

Definition leaf (role : string) (name : option string) (backend : nat)
  : SerializedAXNode :=
  mkAX role name None [] backend None.

(** A button followed by a text input, then a select with one option. *)
Definition tree : SerializedAXNode :=
  mkAX "RootWebArea" (Some "") None [] 1
    (Some [leaf "button" (Some "Click me") 2;
           leaf "textbox" None 3;
           mkAX "combobox" None (Some (VString "Foo")) [] 4
             (Some [leaf "option" (Some "Foo") 5])]).

Definition url_of (p : Page) : string :=
  if Nat.eqb p 11 then "devtools://devtools/bundled/inspector.html"
  else "about:blank".

(** Three pages are open, the second one a DevTools window; page 12
    has no accessibility tree; DOM node 3 is detached. *)
Definition chrome : Browser :=
  {| browser_pages := fun _ => [10; 11; 12];
     page_url := url_of;
     page_isClosed := fun _ => false;
     page_dialogListeners := fun _ => 0;
     page_focusEmulation := fun _ => None;
     page_emulateFocusFails := fun _ => None;
     page_defaultTimeout := fun _ => None;
     page_defaultNavigationTimeout := fun _ => None;
     page_accessibility_snapshot :=
       fun p _ => if Nat.eqb p 10 then Some tree else None;
     resolveNode := fun k => if Nat.eqb k 3 then None else Some (100 + k);
     closeRequests := [] |}.

Definition disk : FileSystem :=
  {| fs_files := ∅;
     fs_writeFails :=
       fun p => if String.eqb p "/cwd/readonly/out.txt"
                then Some (Err "EACCES: permission denied" None) else None;
     path_resolve := fun p => "/cwd/" +:+ p |}.

Definition opts : McpContextOptions :=
  {| experimentalDevToolsDebugging := false;
     experimentalIncludeAllPages := None |}.

(** [McpContext.from]: construction, then [#init]. *)
Definition started : World :=
  snd (createPagesSnapshot (fresh_world opts chrome disk)).

(** After one capture on page 10. *)
Definition captured : World := snd (createTextSnapshot false started).

(** Page 12 selected: its capture yields no tree. *)
Definition on_blank : World := snd (selectPage 12 captured).

(** Page 12 selected before any capture: no snapshot is held. *)
Definition blank_unheld : World := snd (selectPage 12 started).

Definition no_snapshot : TextSnapshot :=
  mkSnapshot (mkTS "" None None [] 0 "" []) ∅ "" None false false.

(** The snapshot held after the capture. *)
Definition snapshot1 : TextSnapshot :=
  match textSnapshot (ctx captured) with
  | Some snap => snap
  | None => no_snapshot
  end.

(** Only a DevTools window is open; the caller has selected it. *)
Definition devtools_only : Browser :=
  {| browser_pages := fun _ => [11];
     page_url := url_of;
     page_isClosed := fun _ => false;
     page_dialogListeners := fun _ => 0;
     page_focusEmulation := fun _ => None;
     page_emulateFocusFails := fun _ => None;
     page_defaultTimeout := fun _ => None;
     page_defaultNavigationTimeout := fun _ => None;
     page_accessibility_snapshot := fun _ _ => None;
     resolveNode := fun _ => None;
     closeRequests := [] |}.

Definition devtools_selected : World :=
  snd (selectPage 11
         (snd (createPagesSnapshot (fresh_world opts devtools_only disk)))).

(** A confirm dialog opens on the selected page. *)
Definition asking : World :=
  snd (dialogHandler (mkDialog confirm "Leave the page?" "") started).

(** A response with two lines, the page list and one image. *)
Definition response : McpResponse :=
  attachImage (mkImage "aGVsbG8=" "image/png")
    (appendResponseLine "second"
       (appendResponseLine "first" (setIncludePages true new_McpResponse))).

(** A response that asks for the snapshot in a file. *)
Definition to_file (filePath : string) : McpResponse :=
  includeSnapshot (Some (mkSnapshotParams None (Some filePath))) new_McpResponse.

(** A stand-in renderer: the role of the root. *)
Definition render (node : TextSnapshotNode) (snap : TextSnapshot) : string :=
  ts_role node.

End Sample.

Definition relisten (old : option Page) (page : Page) (b : Browser) : Page -> nat :=
  page_dialogListeners
    (page_on_dialog page
       (match old with Some o => page_off_dialog o b | None => b end)).

(** The world after the id loop and the visibility filter. *)
Definition refreshed (w : World) : World :=
  let allPages :=
    browser_pages (browser w) (experimentalIncludeAllPages (options (ctx w))) in
  with_ctx (set_pages (List.filter (isVisible (options (ctx w)) (browser w)) allPages))
    (with_ctx (fun c => fold_left assignPageId allPages c) w).

(** The page the final [if] selects, if it selects one. *)
Definition auto_selected (w1 : World) : option Page :=
  match selectedPage (ctx w1), pages (ctx w1) with
  | None, first :: _ => Some first
  | Some sel, first :: _ => if page_in sel (pages (ctx w1)) then None else Some first
  | _, [] => None
  end.

(** ** Further methods of McpContext *)

(** A completed computation as a method that leaves the world alone. *)
Definition lift {A} (c : Completion A) : M A := fun w => (c, w).

(** [getExtensionFromMimeType]. *)
Definition getExtensionFromMimeType (mimeType : string) : Completion string :=
  if String.eqb mimeType "image/png" then Return "png"
  else if String.eqb mimeType "image/jpeg" then Return "jpeg"
  else if String.eqb mimeType "image/webp" then Return "webp"
  else Throw (Err ("No mapping for Mime type " +:+ mimeType +:+ ".") None).




(** [newPage]; [driver_newPage] is [browser.newPage()]: the page it
    returns and the browser it leaves. *)
Definition newPage (driver_newPage : Browser -> Page * Browser) : M Page :=
  let* w := get in
  let '(page, b) := driver_newPage (browser w) in
  let* _ := modify (with_browser (fun _ => b)) in
  let* _ := createPagesSnapshot in
  let* _ := selectPage page in
  ret page.

(** [getNavigationTimeout]; [None] stands for a page whose navigation
    timeout was never set through the session. *)
Definition getNavigationTimeout : M (option N) :=
  let* page := getSelectedPage in
  let* w := get in
  ret (page_defaultNavigationTimeout (browser w) page).

Definition getAXNodeByUid (w : World) (uid : string) : option TextSnapshotNode :=
  match textSnapshot (ctx w) with
  | Some snap => idToNode snap !! uid
  | None => None
  end.

(** The [transform] of [timeoutSchema] ([src/tools/ToolDefinition.ts]),
    on the integers the schema admits:
    [value && value <= 0 ? undefined : value]. *)
Definition timeout_transform (value : option Z) : option Z :=
  match value with
  | Some v => if negb (Z.eqb v 0) && Z.leb v 0 then None else Some v
  | None => None
  end.

Definition Frame : Type := nat.

(** A locator as [waitForTextOnPage] builds it: the raced selectors, each
    in its frame, and the timeout set on the race, if any. *)
Record LocatorSpec : Type := mkLocator {
  raced : list (Frame * string);
  locator_timeout : option Z
}.

(** [waitForTextOnPage], for an integer [timeout]; [page_frames] is
    [page.frames()] and [wait] is [locator.wait()]. *)
Definition waitForTextOnPage {A} (page_frames : Page -> list Frame)
  (wait : LocatorSpec -> M A) (text : string) (timeout : option Z) : M A :=
  let* page := getSelectedPage in
  let frames := page_frames page in
  let locator :=
    mkLocator
      (flat_map (fun frame => [(frame, "aria/" +:+ text); (frame, "text/" +:+ text)])
                frames)
      None in
  let locator :=
    match timeout with
    | Some t => if Z.eqb t 0 then locator else mkLocator (raced locator) (Some t)
    | None => locator
    end in
  wait locator.

(** [resetResponseLineForTesting]. *)
Definition resetResponseLineForTesting (r : McpResponse) : McpResponse :=
  mkResponse (includePages r) (snapshotParams r) [] (images r).

(** ** One step of a session *)

(** A method call, a dialog event or a change of the environment. *)
Inductive step : World -> World -> Prop :=
| step_createPagesSnapshot w : step w (snd (createPagesSnapshot w))
| step_selectPage w page : step w (snd (selectPage page w))
| step_closePage w pageId : step w (snd (closePage pageId w))
| step_createTextSnapshot w verbose : step w (snd (createTextSnapshot verbose w))
| step_clearDialog w : step w (snd (clearDialog w))
| step_dialog_event w page d :
    0 < page_dialogListeners (browser w) page ->
    step w (snd (dialogHandler d w))
| step_saveFile w data filename : step w (snd (saveFile data filename w))
| step_environment w b f :
    (forall p, page_dialogListeners b p = page_dialogListeners (browser w) p) ->
    step w (mkWorld (ctx w) b f (logged w)).

(** Every key of a held snapshot's map carries the snapshot's id. *)
Definition uid_prefix_inv (w : World) : Prop :=
  forall snap u x,
    textSnapshot (ctx w) = Some snap -> idToNode snap !! u = Some x ->
    uid_prefix u = snapshotId snap /\ ts_id x = u.

(** What a step may do to the session's fields: the page-id table and
    the two counters. *)
Definition ids_grow (c c' : McpContext) : Prop :=
  nextPageId c <= nextPageId c'
  /\ nextSnapshotId c <= nextSnapshotId c'
  /\ (forall p i, pageIdMap c !! p = Some i -> pageIdMap c' !! p = Some i)
  /\ (forall q j, pageIdMap c !! q = None -> pageIdMap c' !! q = Some j ->
                  nextPageId c <= j).

(** What [handle] hands to [format] as the snapshot text, read off the
    request and the world [handle] ends in: nothing unless a snapshot
    was requested and one is held; the path-reference line when a
    non-empty file path was given; the rendering of the held snapshot
    otherwise. *)
Definition spec_formattedSnapshot
  (formatSnapshotNode : TextSnapshotNode -> TextSnapshot -> string)
  (r : McpResponse) (w : World) : option string :=
  match snapshotParams r, textSnapshot (ctx w) with
  | Some params, Some snap =>
      match sp_filePath params with
      | Some filePath =>
          if JsString.truthy filePath
          then Some ("Saved snapshot to " +:+ filePath +:+ ".")
          else Some (formatSnapshotNode (root snap) snap)
      | None => Some (formatSnapshotNode (root snap) snap)
      end
  | _, _ => None
  end.

(** * Properties *)

(** ** Strings *)

Lemma append_String c s t : String c s +:+ t = String c (s +:+ t).
Proof. reflexivity. Qed.

Lemma append_empty_l t : EmptyString +:+ t = t.
Proof. reflexivity. Qed.

Lemma append_inj_l s a b : s +:+ a = s +:+ b -> a = b.
Proof.
  induction s as [|c s IH]; intros H.
  - exact H.
  - rewrite !append_String in H. injection H as H. auto.
Qed.

Lemma string_of_uint_inj d d' :
  NilEmpty.string_of_uint d = NilEmpty.string_of_uint d' -> d = d'.
Proof.
  intros H.
  assert (E : NilEmpty.uint_of_string (NilEmpty.string_of_uint d)
              = NilEmpty.uint_of_string (NilEmpty.string_of_uint d'))
    by (rewrite H; reflexivity).
  rewrite !NilEmpty.usu in E. congruence.
Qed.

Lemma of_nat_inj a b : JsString.of_nat a = JsString.of_nat b -> a = b.
Proof.
  unfold JsString.of_nat. intros H.
  apply DecimalNat.Unsigned.to_uint_inj, string_of_uint_inj, H.
Qed.

Lemma uid_of_inj sid a b : uid_of sid a = uid_of sid b -> a = b.
Proof.
  unfold uid_of. intros H.
  apply append_inj_l in H. apply (append_inj_l "_") in H.
  apply of_nat_inj, H.
Qed.

Lemma string_of_uint_no_underscore d :
  has_char JsString.underscore (NilEmpty.string_of_uint d) = false.
Proof. induction d; simpl; auto. Qed.

Lemma of_nat_no_underscore n :
  has_char JsString.underscore (JsString.of_nat n) = false.
Proof. apply string_of_uint_no_underscore. Qed.

Lemma split_no_sep sep s :
  has_char sep s = false -> JsString.split sep s = [s].
Proof.
  induction s as [|c s IH]; simpl; intros H.
  - reflexivity.
  - apply orb_false_iff in H as [Hc Hs].
    rewrite Hc, (IH Hs). reflexivity.
Qed.

Lemma split_head sep a b :
  has_char sep a = false ->
  exists t, JsString.split sep (a +:+ String sep b) = a :: t.
Proof.
  induction a as [|c a IH]; intros H.
  - rewrite append_empty_l. simpl. rewrite Ascii.eqb_refl. eauto.
  - simpl in H. apply orb_false_iff in H as [Hc Ha].
    destruct (IH Ha) as [t Ht].
    rewrite append_String. simpl. rewrite Hc, Ht. eauto.
Qed.

Lemma uid_prefix_no_underscore s :
  has_char JsString.underscore s = false -> uid_prefix s = s.
Proof. intros H. unfold uid_prefix. rewrite (split_no_sep _ _ H). reflexivity. Qed.

Lemma uid_prefix_uid_of sid k : uid_prefix (uid_of sid k) = JsString.of_nat sid.
Proof.
  unfold uid_prefix, uid_of.
  destruct (split_head JsString.underscore (JsString.of_nat sid) (JsString.of_nat k)
              (of_nat_no_underscore sid)) as [t Ht].
  change ("_" +:+ JsString.of_nat k)
    with (String JsString.underscore (JsString.of_nat k)).
  rewrite Ht. reflexivity.
Qed.

Lemma uid_of_in_seq sid k a n :
  List.In (uid_of sid k) (List.map (uid_of sid) (seq a n)) -> a <= k < a + n.
Proof.
  intros H. apply in_map_iff in H as (j & Hj & Hin).
  apply uid_of_inj in Hj. subst j. apply in_seq in Hin. exact Hin.
Qed.

(** ** assignIds *)

(** Induction over an accessibility tree, with the children as a list. *)
Lemma SerializedAXNode_tree_ind (P : SerializedAXNode -> Prop) :
  (forall n, (forall cs, ax_children n = Some cs -> List.Forall P cs) -> P n) ->
  forall n, P n.
Proof.
  intros H. fix IH 1. intros n. apply H.
  destruct n as [r nm v a b [cs|]]; simpl; intros cs' E; [|discriminate].
  injection E as <-.
  induction cs as [|c cs IHcs]; constructor; [apply IH | exact IHcs].
Qed.

Lemma ax_preorder_eq n : ax_preorder n = n :: ax_descendants n.
Proof. destruct n; reflexivity. Qed.

Lemma ts_preorder_eq n : ts_preorder n = n :: flat_map ts_preorder (ts_children n).
Proof. destruct n; reflexivity. Qed.

Lemma assignIds_eq sid node st :
  assignIds sid node st =
  let id := uid_of sid (idCounter st) in
  let st1 := mkAssign (S (idCounter st)) (as_idToNode st) in
  let '(children, st2) :=
    match ax_children node with
    | Some cs => map_st (assignIds sid) cs st1
    | None => ([], st1)
    end in
  let nodeWithId :=
    mkTS (ax_role node) (ax_name node) (option_value node) (ax_attrs node)
         (ax_backend node) id children in
  (nodeWithId,
   mkAssign (idCounter st2) (<[id := nodeWithId]> (as_idToNode st2))).
Proof. destruct node; reflexivity. Qed.

Lemma assigned_nil sid st : assigned sid [] st [] st.
Proof.
  unfold assigned; simpl. repeat split; auto; try lia; try constructor.
Qed.

Lemma assigned_app sid src1 src2 st st1 st2 out1 out2 :
  assigned sid src1 st out1 st1 ->
  assigned sid src2 st1 out2 st2 ->
  assigned sid (src1 ++ src2) st (out1 ++ out2) st2.
Proof.
  intros (C1 & I1 & F1 & L1 & K1) (C2 & I2 & F2 & L2 & K2).
  unfold assigned. rewrite length_app, !map_app, seq_app, map_app.
  repeat split.
  - lia.
  - rewrite I1, I2, C1. reflexivity.
  - apply Forall2_app; assumption.
  - intros x Hx. apply in_app_iff in Hx as [Hx|Hx]; [|auto].
    rewrite K2; [auto|].
    intros Hin. rewrite I2 in Hin.
    assert (Hid : List.In (ts_id x) (List.map ts_id out1)) by (apply in_map; exact Hx).
    rewrite I1 in Hid. apply in_map_iff in Hid as (k & Hk & Hk').
    rewrite <- Hk in Hin. apply uid_of_in_seq in Hin. apply in_seq in Hk'. lia.
  - intros u Hu. rewrite K2, K1; [reflexivity | |];
      intros Hin; apply Hu, in_app_iff; auto.
Qed.

Lemma map_st_assigned sid cs :
  List.Forall (fun c => forall st,
    assigned sid (ax_preorder c) st
      (ts_preorder (fst (assignIds sid c st))) (snd (assignIds sid c st))) cs ->
  forall st,
    assigned sid (flat_map ax_preorder cs) st
      (flat_map ts_preorder (fst (map_st (assignIds sid) cs st)))
      (snd (map_st (assignIds sid) cs st)).
Proof.
  induction 1 as [|c cs Hc _ IH]; intros st.
  - apply assigned_nil.
  - simpl. specialize (Hc st).
    destruct (assignIds sid c st) as [c' st1] eqn:E1.
    specialize (IH st1).
    destruct (map_st (assignIds sid) cs st1) as [cs' st2] eqn:E2.
    simpl in *. eapply assigned_app; eassumption.
Qed.

Lemma assignIds_assigned sid node :
  forall st,
    assigned sid (ax_preorder node) st
      (ts_preorder (fst (assignIds sid node st))) (snd (assignIds sid node st)).
Proof.
  induction node as [node IH] using SerializedAXNode_tree_ind. intros st.
  rewrite assignIds_eq, ax_preorder_eq. unfold ax_descendants. cbv zeta.
  set (st1 := mkAssign (S (idCounter st)) (as_idToNode st)).
  assert (Hkids : exists kids st2,
    match ax_children node with
    | Some cs => map_st (assignIds sid) cs st1
    | None => ([], st1)
    end = (kids, st2)
    /\ assigned sid (ax_descendants node) st1 (flat_map ts_preorder kids) st2).
  { unfold ax_descendants. destruct (ax_children node) as [cs|] eqn:Ec.
    - pose proof (map_st_assigned sid cs (IH cs eq_refl) st1) as Hm.
      destruct (map_st (assignIds sid) cs st1) as [kids st2]. eauto.
    - exists [], st1. split; [reflexivity | apply assigned_nil]. }
  destruct Hkids as (kids & st2 & -> & (C & I & F & L & K)).
  unfold ax_descendants in *.
  set (src := match ax_children node with
              | Some cs => flat_map ax_preorder cs | None => [] end) in *.
  simpl fst; simpl snd. rewrite ts_preorder_eq. simpl ts_children.
  set (me := mkTS _ _ _ _ _ _ kids).
  unfold assigned. simpl idCounter in *. simpl as_idToNode in *.
  simpl length. repeat split.
  - lia.
  - simpl. f_equal. exact I.
  - constructor; [|exact F]. unfold node_image, me; simpl. auto.
  - intros x [<-|Hx].
    + apply lookup_insert_eq.
    + rewrite lookup_insert_ne; [auto|].
      simpl. intros Heq.
      assert (Hid : List.In (ts_id x) (List.map ts_id (flat_map ts_preorder kids)))
        by (apply in_map; exact Hx).
      rewrite I, <- Heq in Hid. apply uid_of_in_seq in Hid. lia.
  - intros u Hu. simpl in Hu.
    rewrite lookup_insert_ne by (intros Heq; apply Hu; left; exact Heq).
    rewrite K by (intros Hin; apply Hu; right; exact Hin).
    reflexivity.
Qed.

(** ** createTextSnapshot *)

Lemma getSelectedPage_pure w : snd (getSelectedPage w) = w.
Proof.
  unfold getSelectedPage, bind, get, throw, ret.
  destruct (selectedPage (ctx w)); [destruct (page_isClosed _ _)|]; reflexivity.
Qed.

Lemma getSelectedPage_eq w : getSelectedPage w = (fst (getSelectedPage w), w).
Proof. rewrite <- (getSelectedPage_pure w) at 3. apply surjective_pairing. Qed.

(** The snapshot a successful capture installs. *)
Lemma createTextSnapshot_capture verbose w page rootNode :
  fst (getSelectedPage w) = Return page ->
  page_accessibility_snapshot (browser w) page (negb verbose) = Some rootNode ->
  createTextSnapshot verbose w =
  (Return tt,
   with_ctx (set_textSnapshot (Some
     {| root := fst (assignIds (nextSnapshotId (ctx w)) rootNode (mkAssign 0 ∅));
        snapshotId := JsString.of_nat (nextSnapshotId (ctx w));
        idToNode := as_idToNode
                      (snd (assignIds (nextSnapshotId (ctx w)) rootNode (mkAssign 0 ∅)));
        selectedElementUid := None;
        hasSelectedElement := false;
        verbose := verbose |}))
     (with_ctx (set_nextSnapshotId (S (nextSnapshotId (ctx w)))) w)).
Proof.
  intros Hp Ht. unfold createTextSnapshot, bind at 1.
  rewrite getSelectedPage_eq, Hp. unfold bind at 1, get. rewrite Ht.
  destruct (assignIds _ rootNode _) as [r st]. reflexivity.
Qed.

Lemma createTextSnapshot_blank verbose w page :
  fst (getSelectedPage w) = Return page ->
  page_accessibility_snapshot (browser w) page (negb verbose) = None ->
  createTextSnapshot verbose w = (Return tt, w).
Proof.
  intros Hp Ht. unfold createTextSnapshot, bind at 1.
  rewrite getSelectedPage_eq, Hp. unfold bind, get. rewrite Ht. reflexivity.
Qed.

Lemma createTextSnapshot_throws verbose w e :
  fst (getSelectedPage w) = Throw e ->
  createTextSnapshot verbose w = (Throw e, w).
Proof.
  intros Hp. unfold createTextSnapshot, bind at 1.
  rewrite getSelectedPage_eq, Hp. reflexivity.
Qed.

Lemma NoDup_map_uid_of sid a n : List.NoDup (List.map (uid_of sid) (seq a n)).
Proof.
  apply Finite.Injective_map_NoDup; [|apply seq_NoDup].
  intros x y. apply uid_of_inj.
Qed.

Lemma assignIds_idToNode sid rootNode u x :
  as_idToNode (snd (assignIds sid rootNode (mkAssign 0 ∅))) !! u = Some x <->
  List.In x (ts_preorder (fst (assignIds sid rootNode (mkAssign 0 ∅))))
  /\ ts_id x = u.
Proof.
  destruct (assignIds_assigned sid rootNode (mkAssign 0 ∅)) as (_ & _ & _ & L & K).
  simpl in K. split.
  - intros Hu.
    destruct (in_dec string_dec u
                (List.map ts_id (ts_preorder (fst (assignIds sid rootNode
                                                     (mkAssign 0 ∅))))))
      as [Hin|Hnin].
    + apply in_map_iff in Hin as (y & <- & Hy).
      rewrite (L y Hy) in Hu. injection Hu as <-. auto.
    + rewrite (K u Hnin), lookup_empty in Hu. discriminate.
  - intros [Hx <-]. apply L, Hx.
Qed.

Lemma Forall2_In_r {A B} (R : A -> B -> Prop) l l' y :
  List.Forall2 R l l' -> List.In y l' -> exists x, List.In x l /\ R x y.
Proof.
  induction 1 as [|a b l l' Hab _ IH]; intros Hy; [destruct Hy|].
  destruct Hy as [<-|Hy].
  - exists a. split; [left; reflexivity | exact Hab].
  - destruct (IH Hy) as (x & Hx & Hr). exists x. split; [right; exact Hx | exact Hr].
Qed.

(** C1: a successful capture installs a snapshot whose id is the counter's
    value; the nodes of its tree, read in depth-first pre-order, carry the
    uids [<id>_0], [<id>_1], ... in that order; every uid has the
    snapshot's id as the text before its first underscore; the uids are
    pairwise distinct; and [idToNode] maps exactly these uids to their
    nodes. *)
Theorem createTextSnapshot_uids verbose w page rootNode :
  fst (getSelectedPage w) = Return page ->
  page_accessibility_snapshot (browser w) page (negb verbose) = Some rootNode ->
  exists snap,
    fst (createTextSnapshot verbose w) = Return tt
    /\ textSnapshot (ctx (snd (createTextSnapshot verbose w))) = Some snap
    /\ snapshotId snap = JsString.of_nat (nextSnapshotId (ctx w))
    /\ List.map ts_id (ts_preorder (root snap))
       = List.map (uid_of (nextSnapshotId (ctx w)))
                  (seq 0 (length (ax_preorder rootNode)))
    /\ (forall x, List.In x (ts_preorder (root snap)) ->
                  uid_prefix (ts_id x) = snapshotId snap)
    /\ List.NoDup (List.map ts_id (ts_preorder (root snap)))
    /\ (forall u x, idToNode snap !! u = Some x <->
                    List.In x (ts_preorder (root snap)) /\ ts_id x = u).
Proof.
  intros Hp Ht. rewrite (createTextSnapshot_capture _ _ _ _ Hp Ht).
  eexists. split; [reflexivity|]. split; [reflexivity|]. simpl.
  destruct (assignIds_assigned (nextSnapshotId (ctx w)) rootNode (mkAssign 0 ∅))
    as (_ & I & _).
  simpl in I.
  split; [reflexivity|]. split; [exact I|]. split; [|split].
  - intros x Hx.
    assert (Hid : List.In (ts_id x)
                    (List.map ts_id (ts_preorder (fst (assignIds
                       (nextSnapshotId (ctx w)) rootNode (mkAssign 0 ∅))))))
      by (apply in_map; exact Hx).
    rewrite I in Hid. apply in_map_iff in Hid as (k & <- & _).
    apply uid_prefix_uid_of.
  - rewrite I. apply NoDup_map_uid_of.
  - intros u x. apply assignIds_idToNode.
Qed.

(** The capture of the sample page: five nodes, uids 1_0 to 1_4. *)
Lemma createTextSnapshot_uids_witness :
  exists snap,
    textSnapshot (ctx Sample.captured) = Some snap
    /\ List.map ts_id (ts_preorder (root snap)) = ["1_0"; "1_1"; "1_2"; "1_3"; "1_4"].
Proof.
  destruct (createTextSnapshot_uids false Sample.started 10 Sample.tree
              eq_refl eq_refl) as (snap & _ & Hs & _ & Hids & _).
  exists snap. split; [exact Hs | exact Hids].
Defined.

(** C5: with a page selected, a capture for which the driver returns no
    tree returns normally and leaves the whole world as it was, the prior
    snapshot and the snapshot-id counter included; a capture for which it
    returns a tree returns normally and advances the counter by exactly
    one. *)
Theorem createTextSnapshot_counter verbose w page :
  fst (getSelectedPage w) = Return page ->
  fst (createTextSnapshot verbose w) = Return tt
  /\ match page_accessibility_snapshot (browser w) page (negb verbose) with
     | None => snd (createTextSnapshot verbose w) = w
     | Some _ =>
         nextSnapshotId (ctx (snd (createTextSnapshot verbose w)))
         = S (nextSnapshotId (ctx w))
     end.
Proof.
  intros Hp.
  destruct (page_accessibility_snapshot (browser w) page (negb verbose))
    as [rootNode|] eqn:Ht.
  - rewrite (createTextSnapshot_capture _ _ _ _ Hp Ht). split; reflexivity.
  - rewrite (createTextSnapshot_blank _ _ _ Hp Ht). split; reflexivity.
Qed.

(** On the blank page 12 the capture changes nothing: snapshot 1 stays. *)
Lemma createTextSnapshot_counter_witness :
  fst (createTextSnapshot true Sample.on_blank) = Return tt
  /\ snd (createTextSnapshot true Sample.on_blank) = Sample.on_blank.
Proof.
  exact (createTextSnapshot_counter true Sample.on_blank 12 eq_refl).
Defined.

Lemma option_value_spec n n' : node_image n n' -> spec_option_rule n n'.
Proof.
  intros (_ & _ & _ & _ & Hv). unfold spec_option_rule, option_value in *.
  rewrite Hv. split.
  - intros text Hr Hn Hne. rewrite Hr, Hn. simpl.
    destruct text; [congruence | reflexivity].
  - intros [Hr | [Hn | Hn]].
    + destruct (String.eqb_spec (ax_role n) "option"); [contradiction | reflexivity].
    + rewrite Hn. destruct (String.eqb _ _); reflexivity.
    + rewrite Hn. destruct (String.eqb _ _); reflexivity.
Qed.

(** C6: in a successful capture the nodes of the snapshot correspond one
    to one, in pre-order, to the nodes of the driver's tree; a node with
    role "option" and a non-empty name has that name, as a string, for
    its value, and every other node keeps the value of its source node.
    The nodes held by [idToNode] are these same nodes. *)
Theorem createTextSnapshot_option_value verbose w page rootNode :
  fst (getSelectedPage w) = Return page ->
  page_accessibility_snapshot (browser w) page (negb verbose) = Some rootNode ->
  exists snap,
    textSnapshot (ctx (snd (createTextSnapshot verbose w))) = Some snap
    /\ List.Forall2 spec_option_rule (ax_preorder rootNode) (ts_preorder (root snap))
    /\ (forall u x, idToNode snap !! u = Some x ->
          exists n, List.In n (ax_preorder rootNode) /\ spec_option_rule n x).
Proof.
  intros Hp Ht. rewrite (createTextSnapshot_capture _ _ _ _ Hp Ht).
  eexists. split; [reflexivity|]. simpl.
  destruct (assignIds_assigned (nextSnapshotId (ctx w)) rootNode (mkAssign 0 ∅))
    as (_ & _ & F & _).
  assert (F' : List.Forall2 spec_option_rule (ax_preorder rootNode)
                 (ts_preorder (fst (assignIds (nextSnapshotId (ctx w)) rootNode
                                              (mkAssign 0 ∅))))).
  { eapply Forall2_impl; [exact F|]. intros; apply option_value_spec; assumption. }
  split; [exact F'|].
  intros u x Hu. apply assignIds_idToNode in Hu as [Hx _].
  exact (Forall2_In_r _ _ _ _ F' Hx).
Qed.

(** The option of the sample page takes the value "Foo" from its name. *)
Lemma createTextSnapshot_option_value_witness :
  exists x,
    (textSnapshot (ctx Sample.captured) ≫= fun snap => idToNode snap !! "1_4") = Some x
    /\ ts_role x = "option" /\ ts_value x = Some (VString "Foo").
Proof.
  destruct (createTextSnapshot_option_value false Sample.started 10 Sample.tree
              eq_refl eq_refl) as (snap & Hs & _ & _).
  change (textSnapshot (ctx Sample.captured) = Some snap) in Hs.
  rewrite Hs. simpl. injection Hs as <-.
  eexists. split; [vm_compute; reflexivity|]. split; reflexivity.
Defined.

(** ** Effects of the methods on the world *)

Ltac run_monad :=
  unfold updateSelectedPageTimeouts, getSelectedPage, getPageById,
    emulateFocusedPage_logged, logger, fs_writeFile, clearDialog, dialogHandler,
    try_catch, bind, get, modify, ret, throw; simpl.

Lemma selectPage_ctx page w :
  ctx (snd (selectPage page w)) = set_selectedPage (Some page) (ctx w).
Proof.
  unfold selectPage. run_monad.
  destruct (selectedPage (ctx w)) as [old|]; simpl;
    [destruct (page_emulateFocusFails (browser w) old); simpl|];
    destruct (page_isClosed (browser w) page); simpl; try reflexivity;
    destruct (page_emulateFocusFails (browser w) page); reflexivity.
Qed.

Lemma selectPage_listeners page w q :
  page_dialogListeners (browser (snd (selectPage page w))) q
  = relisten (selectedPage (ctx w)) page (browser w) q.
Proof.
  unfold selectPage, relisten. run_monad.
  destruct (selectedPage (ctx w)) as [old|]; simpl;
    [destruct (page_emulateFocusFails (browser w) old); simpl|];
    destruct (page_isClosed (browser w) page); simpl; try reflexivity;
    destruct (page_emulateFocusFails (browser w) page); reflexivity.
Qed.

(** [selectPage] leaves what the driver reports about pages as it was. *)
Lemma selectPage_browser_frame page w :
  let b' := browser (snd (selectPage page w)) in
  browser_pages b' = browser_pages (browser w)
  /\ page_url b' = page_url (browser w)
  /\ page_isClosed b' = page_isClosed (browser w)
  /\ page_accessibility_snapshot b' = page_accessibility_snapshot (browser w)
  /\ resolveNode b' = resolveNode (browser w)
  /\ closeRequests b' = closeRequests (browser w).
Proof.
  unfold selectPage. run_monad.
  destruct (selectedPage (ctx w)) as [old|]; simpl;
    [destruct (page_emulateFocusFails (browser w) old); simpl|];
    destruct (page_isClosed (browser w) page); simpl; auto 10;
    destruct (page_emulateFocusFails (browser w) page); simpl; auto 10.
Qed.

Lemma selectPage_result page w :
  fst (selectPage page w)
  = if page_isClosed (browser w) page then Throw SELECTED_PAGE_CLOSED
    else Return tt.
Proof.
  unfold selectPage. run_monad.
  destruct (selectedPage (ctx w)) as [old|]; simpl;
    [destruct (page_emulateFocusFails (browser w) old); simpl|];
    destruct (page_isClosed (browser w) page); simpl; try reflexivity;
    destruct (page_emulateFocusFails (browser w) page); reflexivity.
Qed.

Lemma upd_same {V} (f : Page -> V) p v : upd f p v p = v.
Proof. unfold upd. rewrite Nat.eqb_refl. reflexivity. Qed.

Lemma upd_other {V} (f : Page -> V) p v q : q <> p -> upd f p v q = f q.
Proof. unfold upd. intros H. apply Nat.eqb_neq in H. rewrite H. reflexivity. Qed.

Lemma selectPage_listeners_inv page w :
  listeners_inv w -> listeners_inv (snd (selectPage page w)).
Proof.
  intros H q. unfold isPageSelected.
  rewrite selectPage_listeners, selectPage_ctx. simpl.
  unfold relisten. pose proof H as H0. unfold listeners_inv, isPageSelected in H.
  destruct (selectedPage (ctx w)) as [old|]; simpl.
  - destruct (Nat.eqb_spec page q) as [->|Hne].
    + rewrite upd_same. destruct (Nat.eqb_spec q old) as [->|Hq].
      * rewrite upd_same, (H old), Nat.eqb_refl. reflexivity.
      * rewrite upd_other by exact Hq. rewrite (H q).
        destruct (Nat.eqb_spec old q); [congruence | reflexivity].
    + rewrite upd_other by congruence.
      destruct (Nat.eqb_spec q old) as [->|Hq].
      * rewrite upd_same, (H old), Nat.eqb_refl. reflexivity.
      * rewrite upd_other by exact Hq. rewrite (H q).
        destruct (Nat.eqb_spec old q); [congruence | reflexivity].
  - destruct (Nat.eqb_spec page q) as [->|Hne].
    + rewrite upd_same, (H q). reflexivity.
    + rewrite upd_other by congruence. apply H.
Qed.

(** ** Page ids *)

Lemma assignPageId_frame c page :
  pages (assignPageId c page) = pages c
  /\ selectedPage (assignPageId c page) = selectedPage c
  /\ textSnapshot (assignPageId c page) = textSnapshot c
  /\ dialog (assignPageId c page) = dialog c
  /\ nextSnapshotId (assignPageId c page) = nextSnapshotId c
  /\ options (assignPageId c page) = options c.
Proof.
  unfold assignPageId. destruct (pageIdMap c !! page); simpl; auto 10.
Qed.

Lemma assignPageId_fold_frame l c :
  pages (fold_left assignPageId l c) = pages c
  /\ selectedPage (fold_left assignPageId l c) = selectedPage c
  /\ textSnapshot (fold_left assignPageId l c) = textSnapshot c
  /\ dialog (fold_left assignPageId l c) = dialog c
  /\ nextSnapshotId (fold_left assignPageId l c) = nextSnapshotId c
  /\ options (fold_left assignPageId l c) = options c.
Proof.
  revert c. induction l as [|p l IH]; intros c; simpl; [auto 10|].
  destruct (IH (assignPageId c p)) as (-> & -> & -> & -> & -> & ->).
  apply assignPageId_frame.
Qed.

(** The loop gives the newly seen pages the ids [nextPageId],
    [nextPageId + 1], ... in discovery order and leaves every other page's
    id alone. *)
Lemma assignPageId_fold l : forall c,
  let c' := fold_left assignPageId l c in
  let fresh := newly_seen (dom (pageIdMap c)) l in
  nextPageId c' = nextPageId c + length fresh
  /\ (forall k p, nth_error fresh k = Some p ->
                  pageIdMap c' !! p = Some (nextPageId c + k))
  /\ (forall p, ~ List.In p fresh -> pageIdMap c' !! p = pageIdMap c !! p)
  /\ (forall p, List.In p fresh -> pageIdMap c !! p = None /\ List.In p l)
  /\ (forall p, List.In p l -> exists i, pageIdMap c' !! p = Some i).
Proof.
  induction l as [|p l IH]; intros c; simpl.
  - repeat split; try lia; try contradiction.
    intros k q Hk. destruct k; discriminate.
  - destruct (decide (p ∈ dom (pageIdMap c))) as [Hin|Hnin].
    + apply elem_of_dom in Hin as [i Hi].
      assert (Ec : assignPageId c p = c) by (unfold assignPageId; rewrite Hi; reflexivity).
      rewrite Ec. destruct (IH c) as (N & A & B & C & D).
      split; [exact N|]. split; [exact A|]. split; [exact B|]. split.
      * intros q Hq. apply C in Hq as [Hq Hl]. split; [exact Hq | right; exact Hl].
      * intros q [<-|Hq]; [|auto].
        destruct (in_dec Nat.eq_dec p (newly_seen (dom (pageIdMap c)) l)) as [Hf|Hf].
        -- apply C in Hf as [Hf _]. congruence.
        -- rewrite (B p Hf). eauto.
    + assert (Hnone : pageIdMap c !! p = None)
        by (apply not_elem_of_dom; exact Hnin).
      set (c1 := assignPageId c p).
      assert (Em : pageIdMap c1 = <[p := nextPageId c]> (pageIdMap c))
        by (unfold c1, assignPageId; rewrite Hnone; reflexivity).
      assert (En : nextPageId c1 = S (nextPageId c))
        by (unfold c1, assignPageId; rewrite Hnone; reflexivity).
      destruct (IH c1) as (N & A & B & C & D).
      rewrite Em, dom_insert_L in N, A, B, C. rewrite En in N, A.
      set (fresh1 := newly_seen ({[p]} ∪ dom (pageIdMap c)) l) in *.
      assert (Hp1 : ~ List.In p fresh1).
      { intros Hf. apply C in Hf as [Hf _]. rewrite lookup_insert_eq in Hf.
        discriminate. }
      split; [simpl; lia|]. split; [|split; [|split]].
      * intros k q Hk. destruct k as [|k]; simpl in Hk.
        -- injection Hk as <-. rewrite (B p Hp1), lookup_insert_eq.
           f_equal. lia.
        -- rewrite (A k q Hk). f_equal. lia.
      * intros q Hq. simpl in Hq.
        rewrite B by tauto. apply lookup_insert_ne. tauto.
      * intros q [<-|Hq]; [split; [exact Hnone | left; reflexivity]|].
        apply C in Hq as [Hq Hl]. split; [|right; exact Hl].
        destruct (Nat.eq_dec p q) as [->|Hne].
        -- rewrite lookup_insert_eq in Hq. discriminate.
        -- rewrite lookup_insert_ne in Hq by exact Hne. exact Hq.
      * intros q [<-|Hq]; [|auto].
        rewrite (B p Hp1), lookup_insert_eq. eauto.
Qed.

Lemma assignPageId_fold_inv l c :
  pageIds_inv c ->
  let c' := fold_left assignPageId l c in
  1 <= nextPageId c'
  /\ (forall p i, pageIdMap c' !! p = Some i -> 1 <= i < nextPageId c')
  /\ (forall p q i, pageIdMap c' !! p = Some i -> pageIdMap c' !! q = Some i -> p = q).
Proof.
  intros (H1 & Hlt & Hinj & _). cbv zeta.
  destruct (assignPageId_fold l c) as (N & A & B & C & _).
  set (fresh := newly_seen (dom (pageIdMap c)) l) in *.
  set (c' := fold_left assignPageId l c) in *.
  assert (Hcase : forall p i, pageIdMap c' !! p = Some i ->
            (pageIdMap c !! p = Some i /\ ~ List.In p fresh)
            \/ (exists k, nth_error fresh k = Some p /\ i = nextPageId c + k)).
  { intros p i Hi.
    destruct (in_dec Nat.eq_dec p fresh) as [Hf|Hf].
    - right. apply In_nth_error in Hf as [k Hk]. exists k. split; [exact Hk|].
      rewrite (A k p Hk) in Hi. congruence.
    - left. rewrite (B p Hf) in Hi. auto. }
  split; [lia|]. split.
  - intros p i Hi. destruct (Hcase p i Hi) as [[Ho _]|(k & Hk & ->)].
    + apply Hlt in Ho. lia.
    + assert (k < length fresh) by (apply nth_error_Some; congruence). lia.
  - intros p q i Hp Hq.
    destruct (Hcase p i Hp) as [[Hop _]|(k & Hk & Ek)];
      destruct (Hcase q i Hq) as [[Hoq _]|(k' & Hk' & Ek')].
    + eapply Hinj; eassumption.
    + apply Hlt in Hop. lia.
    + apply Hlt in Hoq. lia.
    + assert (k = k') by lia. subst k'. congruence.
Qed.

(** ** createPagesSnapshot *)

Lemma createPagesSnapshot_world w :
  snd (createPagesSnapshot w)
  = match auto_selected (refreshed w) with
    | Some first => snd (selectPage first (refreshed w))
    | None => refreshed w
    end.
Proof.
  unfold createPagesSnapshot, auto_selected. unfold bind at 1, get at 1.
  unfold bind at 1, modify at 1. unfold bind at 1, modify at 1.
  unfold bind at 1, get at 1. fold (refreshed w).
  destruct (selectedPage (ctx (refreshed w))) as [sel|];
    destruct (pages (ctx (refreshed w))) as [|first rest] eqn:Ep; simpl;
    try reflexivity.
  - match goal with |- context [if ?b then None else _] => destruct b end; simpl.
    + reflexivity.
    + unfold bind. destruct (selectPage first (refreshed w)) as [[[]|e] w2]; reflexivity.
  - unfold bind. destruct (selectPage first (refreshed w)) as [[[]|e] w2]; reflexivity.
Qed.

Lemma refreshed_ctx w :
  let allPages :=
    browser_pages (browser w) (experimentalIncludeAllPages (options (ctx w))) in
  pages (ctx (refreshed w))
  = List.filter (isVisible (options (ctx w)) (browser w)) allPages
  /\ pageIdMap (ctx (refreshed w)) = pageIdMap (fold_left assignPageId allPages (ctx w))
  /\ nextPageId (ctx (refreshed w)) = nextPageId (fold_left assignPageId allPages (ctx w))
  /\ selectedPage (ctx (refreshed w)) = selectedPage (ctx w)
  /\ textSnapshot (ctx (refreshed w)) = textSnapshot (ctx w)
  /\ dialog (ctx (refreshed w)) = dialog (ctx w)
  /\ nextSnapshotId (ctx (refreshed w)) = nextSnapshotId (ctx w)
  /\ options (ctx (refreshed w)) = options (ctx w)
  /\ browser (refreshed w) = browser w.
Proof.
  cbv zeta. unfold refreshed. simpl.
  destruct (assignPageId_fold_frame
              (browser_pages (browser w) (experimentalIncludeAllPages (options (ctx w))))
              (ctx w)) as (_ & -> & -> & -> & -> & ->).
  auto 10.
Qed.

Lemma createPagesSnapshot_ctx w :
  let w' := snd (createPagesSnapshot w) in
  pages (ctx w') = pages (ctx (refreshed w))
  /\ pageIdMap (ctx w') = pageIdMap (ctx (refreshed w))
  /\ nextPageId (ctx w') = nextPageId (ctx (refreshed w))
  /\ selectedPage (ctx w')
     = match auto_selected (refreshed w) with
       | Some first => Some first
       | None => selectedPage (ctx w)
       end
  /\ textSnapshot (ctx w') = textSnapshot (ctx w)
  /\ dialog (ctx w') = dialog (ctx w)
  /\ nextSnapshotId (ctx w') = nextSnapshotId (ctx w)
  /\ options (ctx w') = options (ctx w).
Proof.
  cbv zeta. rewrite createPagesSnapshot_world.
  destruct (refreshed_ctx w) as (_ & _ & _ & Es & Et & Ed & En & Eo & _).
  destruct (auto_selected (refreshed w)) as [first|].
  - rewrite selectPage_ctx. simpl. auto 10.
  - auto 10.
Qed.

Lemma auto_selected_listed w1 first :
  auto_selected w1 = Some first -> exists rest, pages (ctx w1) = first :: rest.
Proof.
  unfold auto_selected.
  destruct (selectedPage (ctx w1)), (pages (ctx w1)) as [|f rest];
    try discriminate; [destruct (page_in _ _); try discriminate|];
    intros [= <-]; eauto.
Qed.

(** ** closePage and createTextSnapshot as state changes *)

Lemma closePage_eq pageId w :
  closePage pageId w
  = if Nat.eqb (length (pages (ctx w))) 1
    then (Throw (Err CLOSE_PAGE_ERROR None), w)
    else match List.find (fun p => option_nat_eqb (pageIdMap (ctx w) !! p) pageId)
                         (pages (ctx w)) with
         | None => (Throw NO_PAGE_FOUND, w)
         | Some page => (Return tt, with_browser (page_close page false) w)
         end.
Proof.
  unfold closePage. run_monad.
  destruct (Nat.eqb _ 1); [reflexivity|].
  destruct (List.find _ _); reflexivity.
Qed.

Lemma closePage_frame pageId w :
  ctx (snd (closePage pageId w)) = ctx w
  /\ page_dialogListeners (browser (snd (closePage pageId w)))
     = page_dialogListeners (browser w).
Proof.
  rewrite closePage_eq. destruct (Nat.eqb _ 1); [auto|].
  destruct (List.find _ _); auto.
Qed.

Lemma createTextSnapshot_cases verbose w :
  snd (createTextSnapshot verbose w) = w
  \/ exists page rootNode,
       fst (getSelectedPage w) = Return page
       /\ page_accessibility_snapshot (browser w) page (negb verbose) = Some rootNode.
Proof.
  destruct (fst (getSelectedPage w)) as [page|e] eqn:Hp.
  - destruct (page_accessibility_snapshot (browser w) page (negb verbose))
      as [rootNode|] eqn:Ht.
    + right. eauto.
    + left. rewrite (createTextSnapshot_blank _ _ _ Hp Ht). reflexivity.
  - left. rewrite (createTextSnapshot_throws _ _ _ Hp). reflexivity.
Qed.

Lemma assignIds_nonempty sid rootNode :
  size (as_idToNode (snd (assignIds sid rootNode (mkAssign 0 ∅)))) <> 0.
Proof.
  intros Hz. apply map_size_empty_iff in Hz.
  set (r := fst (assignIds sid rootNode (mkAssign 0 ∅))).
  assert (Hl : as_idToNode (snd (assignIds sid rootNode (mkAssign 0 ∅))) !! ts_id r
               = Some r).
  { apply assignIds_idToNode. split; [|reflexivity].
    fold r. rewrite ts_preorder_eq. left. reflexivity. }
  rewrite Hz, lookup_empty in Hl. discriminate.
Qed.

(** ** The invariants hold in every reachable world *)

Lemma pageIds_inv_set c c' :
  pages c' = pages c -> pageIdMap c' = pageIdMap c -> nextPageId c' = nextPageId c ->
  pageIds_inv c -> pageIds_inv c'.
Proof. unfold pageIds_inv. intros -> -> ->. auto. Qed.

Lemma session_inv_new opts b f :
  (forall p, page_dialogListeners b p = 0) -> session_inv (fresh_world opts b f).
Proof.
  intros Hb. split; [|split].
  - intros p. apply Hb.
  - reflexivity.
  - unfold pageIds_inv. simpl. split; [lia|]. split; [|split].
    + intros p i Hp. rewrite lookup_empty in Hp. discriminate.
    + intros p q i Hp. rewrite lookup_empty in Hp. discriminate.
    + intros p [].
Qed.

Lemma session_inv_selectPage page w :
  session_inv w -> session_inv (snd (selectPage page w)).
Proof.
  intros (HL & HS & HP). split; [apply selectPage_listeners_inv, HL|].
  split.
  - unfold snapshot_inv in *. rewrite selectPage_ctx. exact HS.
  - rewrite selectPage_ctx. eapply pageIds_inv_set; [| | |exact HP]; reflexivity.
Qed.

Lemma session_inv_refreshed w : session_inv w -> session_inv (refreshed w).
Proof.
  intros (HL & HS & HP).
  destruct (refreshed_ctx w) as (Ep & Em & En & Es & Et & Ed & Ei & Eo & Eb).
  split; [|split].
  - intros p. unfold isPageSelected. rewrite Eb, Es. apply HL.
  - unfold snapshot_inv in *. rewrite Et, Ei. exact HS.
  - destruct (assignPageId_fold_inv
                (browser_pages (browser w)
                   (experimentalIncludeAllPages (options (ctx w)))) (ctx w) HP)
      as (H1 & Hlt & Hinj).
    unfold pageIds_inv. rewrite Ep, Em, En.
    split; [exact H1|]. split; [exact Hlt|]. split; [exact Hinj|].
    intros p Hp. apply filter_In in Hp as [Hp _].
      destruct (assignPageId_fold
                  (browser_pages (browser w)
                     (experimentalIncludeAllPages (options (ctx w)))) (ctx w))
      as (_ & _ & _ & _ & D).
    apply D, Hp.
Qed.

Lemma session_inv_createPagesSnapshot w :
  session_inv w -> session_inv (snd (createPagesSnapshot w)).
Proof.
  intros H. rewrite createPagesSnapshot_world.
  apply session_inv_refreshed in H.
  destruct (auto_selected (refreshed w)); [apply session_inv_selectPage|]; exact H.
Qed.

Lemma session_inv_closePage pageId w :
  session_inv w -> session_inv (snd (closePage pageId w)).
Proof.
  intros (HL & HS & HP). destruct (closePage_frame pageId w) as (Ec & El).
  split; [|split].
  - intros p. unfold isPageSelected. rewrite Ec, El. apply HL.
  - unfold snapshot_inv. rewrite Ec. exact HS.
  - rewrite Ec. exact HP.
Qed.

Lemma session_inv_createTextSnapshot verbose w :
  session_inv w -> session_inv (snd (createTextSnapshot verbose w)).
Proof.
  intros H. destruct (createTextSnapshot_cases verbose w)
    as [->|(page & rootNode & Hp & Ht)]; [exact H|].
  rewrite (createTextSnapshot_capture _ _ _ _ Hp Ht).
  destruct H as (HL & HS & HP). split; [exact HL|]. split; [|exact HP].
  unfold snapshot_inv in *. simpl. split; [apply assignIds_nonempty|].
  exists (nextSnapshotId (ctx w)). split; [reflexivity|]. split; [reflexivity|].
  destruct (textSnapshot (ctx w)) as [snap|]; [|lia].
  destruct HS as (_ & k & _ & -> & _). lia.
Qed.

Lemma saveFile_frame data filename w :
  ctx (snd (saveFile data filename w)) = ctx w
  /\ browser (snd (saveFile data filename w)) = browser w.
Proof.
  unfold saveFile. run_monad.
  destruct (fs_writeFails (fs w) (path_resolve (fs w) filename)); simpl; auto.
Qed.

Lemma Reachable_inv w : Reachable w -> session_inv w.
Proof.
  induction 1 as [opts b f Hb | w _ IH | w page _ IH | w pageId _ IH
                 | w verbose _ IH | w _ IH | w page d _ IH _
                 | w data filename _ IH | w b f _ IH Hb].
  - apply session_inv_new, Hb.
  - apply session_inv_createPagesSnapshot, IH.
  - apply session_inv_selectPage, IH.
  - apply session_inv_closePage, IH.
  - apply session_inv_createTextSnapshot, IH.
  - exact IH.
  - exact IH.
  - destruct IH as (HL & HS & HP). destruct (saveFile_frame data filename w) as (Ec & Eb).
    split; [|split].
    + intros p. unfold isPageSelected. rewrite Ec, Eb. apply HL.
    + unfold snapshot_inv. rewrite Ec. exact HS.
    + rewrite Ec. exact HP.
  - destruct IH as (HL & HS & HP). split; [|split]; [|exact HS|exact HP].
    intros p. unfold isPageSelected. simpl. rewrite Hb. apply HL.
Qed.

(** ** getElementByUid *)

Lemma Reachable_started : Reachable Sample.started.
Proof. apply reach_createPagesSnapshot, reach_new. reflexivity. Qed.

Lemma Reachable_captured : Reachable Sample.captured.
Proof. apply reach_createTextSnapshot, Reachable_started. Qed.

Lemma getElementByUid_eq w uid snap :
  textSnapshot (ctx w) = Some snap -> size (idToNode snap) <> 0 ->
  getElementByUid uid w
  = (if String.eqb (snapshotId snap) (uid_prefix uid) then
       match idToNode snap !! uid with
       | None => Throw NO_SUCH_ELEMENT
       | Some node =>
           match resolveNode (browser w) (ts_backend node) with
           | None => Throw NO_SUCH_ELEMENT
           | Some handle => Return handle
           end
       end
     else Throw STALE_SNAPSHOT, w).
Proof.
  intros Hs Hz. unfold getElementByUid. run_monad. rewrite Hs.
  apply Nat.eqb_neq in Hz. rewrite Hz.
  destruct (String.eqb _ _); simpl; [|reflexivity].
  destruct (idToNode snap !! uid) as [node|]; [|reflexivity].
  destruct (resolveNode _ _); reflexivity.
Qed.

(** C2: in every reachable world, for every uid: with no snapshot (which
    is the case exactly as long as no capture has succeeded, the counter
    still being 1) the call throws the no-snapshot error; with a
    snapshot, a uid whose prefix differs from the snapshot's id throws
    the stale-snapshot error; a uid with the right prefix that is absent
    from [idToNode] throws the not-found error, and so does one whose
    node resolves to no live element; otherwise the call returns the
    resolved handle.  No case changes the world. *)
Theorem getElementByUid_outcome w uid :
  Reachable w ->
  (textSnapshot (ctx w) = None <-> nextSnapshotId (ctx w) = 1)
  /\ (textSnapshot (ctx w) = None ->
      getElementByUid uid w = (Throw NO_SNAPSHOT, w))
  /\ (forall snap, textSnapshot (ctx w) = Some snap ->
        (uid_prefix uid <> snapshotId snap ->
         getElementByUid uid w = (Throw STALE_SNAPSHOT, w))
        /\ (uid_prefix uid = snapshotId snap -> idToNode snap !! uid = None ->
            getElementByUid uid w = (Throw NO_SUCH_ELEMENT, w))
        /\ (forall node, uid_prefix uid = snapshotId snap ->
              idToNode snap !! uid = Some node ->
              resolveNode (browser w) (ts_backend node) = None ->
              getElementByUid uid w = (Throw NO_SUCH_ELEMENT, w))
        /\ (forall node handle, uid_prefix uid = snapshotId snap ->
              idToNode snap !! uid = Some node ->
              resolveNode (browser w) (ts_backend node) = Some handle ->
              getElementByUid uid w = (Return handle, w))).
Proof.
  intros HR. destruct (Reachable_inv w HR) as (_ & HS & _).
  unfold snapshot_inv in HS. split; [|split].
  - destruct (textSnapshot (ctx w)) as [snap|].
    + destruct HS as (_ & k & _ & -> & Hk). split; [discriminate | lia].
    + tauto.
  - intros Hn. unfold getElementByUid. run_monad. rewrite Hn. reflexivity.
  - intros snap Hs. rewrite Hs in HS. destruct HS as (Hz & _).
    rewrite (getElementByUid_eq w uid snap Hs Hz).
    split; [|split; [|split]].
    + intros Hne. destruct (String.eqb_spec (snapshotId snap) (uid_prefix uid));
        [congruence | reflexivity].
    + intros <- ->. rewrite String.eqb_refl. reflexivity.
    + intros node <- -> ->. rewrite String.eqb_refl. reflexivity.
    + intros node handle <- -> ->. rewrite String.eqb_refl. reflexivity.
Qed.

(** On the captured sample page, uid 1_1 (the button) resolves to its
    element, uid 1_2 (the detached text box) is not found, and uid 0_1
    is stale. *)
Lemma getElementByUid_outcome_witness :
  getElementByUid "1_1" Sample.captured = (Return 102, Sample.captured)
  /\ getElementByUid "1_2" Sample.captured = (Throw NO_SUCH_ELEMENT, Sample.captured)
  /\ getElementByUid "0_1" Sample.captured = (Throw STALE_SNAPSHOT, Sample.captured).
Proof.
  assert (Hs : textSnapshot (ctx Sample.captured) = Some Sample.snapshot1)
    by (vm_compute; reflexivity).
  split; [|split].
  - destruct (idToNode Sample.snapshot1 !! "1_1") as [node|] eqn:En;
      [|vm_compute in En; discriminate].
    destruct (getElementByUid_outcome Sample.captured "1_1" Reachable_captured)
      as (_ & _ & H).
    destruct (H _ Hs) as (_ & _ & _ & H4).
    apply (H4 node 102); [vm_compute; reflexivity | exact En |].
    vm_compute in En. injection En as <-. reflexivity.
  - destruct (idToNode Sample.snapshot1 !! "1_2") as [node|] eqn:En;
      [|vm_compute in En; discriminate].
    destruct (getElementByUid_outcome Sample.captured "1_2" Reachable_captured)
      as (_ & _ & H).
    destruct (H _ Hs) as (_ & _ & H3 & _).
    apply (H3 node); [vm_compute; reflexivity | exact En |].
    vm_compute in En. injection En as <-. reflexivity.
  - destruct (getElementByUid_outcome Sample.captured "0_1" Reachable_captured)
      as (_ & _ & H).
    destruct (H _ Hs) as (H1 & _).
    apply H1. vm_compute. discriminate.
Defined.

(** C10: in every reachable world that holds a snapshot, the snapshot's
    id is the decimal text of the last id issued, and the prefix of a uid
    is compared with it as a string: any uid whose text before the first
    underscore is not that very string throws the stale-snapshot error,
    be the prefix a larger number, a number never issued or no number at
    all; a uid without underscore is its own prefix. *)
Theorem getElementByUid_stale_prefix w uid snap :
  Reachable w ->
  textSnapshot (ctx w) = Some snap ->
  uid_prefix uid <> snapshotId snap ->
  getElementByUid uid w = (Throw STALE_SNAPSHOT, w)
  /\ (exists k, snapshotId snap = JsString.of_nat k
                /\ nextSnapshotId (ctx w) = S k
                /\ forall j n, j <> k ->
                     getElementByUid (uid_of j n) w = (Throw STALE_SNAPSHOT, w))
  /\ (forall bare, has_char JsString.underscore bare = false ->
                   uid_prefix bare = bare).
Proof.
  intros HR Hs Hne. destruct (Reachable_inv w HR) as (_ & HS & _).
  unfold snapshot_inv in HS. rewrite Hs in HS.
  destruct HS as (Hz & k & Ek & En & _).
  assert (Hstale : forall u, uid_prefix u <> snapshotId snap ->
            getElementByUid u w = (Throw STALE_SNAPSHOT, w)).
  { intros u Hu. rewrite (getElementByUid_eq w u snap Hs Hz).
    destruct (String.eqb_spec (snapshotId snap) (uid_prefix u));
      [congruence | reflexivity]. }
  split; [apply Hstale, Hne|]. split.
  - exists k. split; [exact Ek|]. split; [exact En|].
    intros j n Hj. apply Hstale. rewrite uid_prefix_uid_of, Ek.
    intros E. apply of_nat_inj in E. contradiction.
  - apply uid_prefix_no_underscore.
Qed.

(** With snapshot 1 current, the uids 2_0, x_0 and the bare 7 are stale. *)
Lemma getElementByUid_stale_prefix_witness :
  getElementByUid "2_0" Sample.captured = (Throw STALE_SNAPSHOT, Sample.captured)
  /\ getElementByUid "x_0" Sample.captured = (Throw STALE_SNAPSHOT, Sample.captured)
  /\ getElementByUid "7" Sample.captured = (Throw STALE_SNAPSHOT, Sample.captured).
Proof.
  assert (Hs : textSnapshot (ctx Sample.captured) = Some Sample.snapshot1)
    by (vm_compute; reflexivity).
  split; [|split].
  - apply (getElementByUid_stale_prefix Sample.captured "2_0" Sample.snapshot1
             Reachable_captured Hs).
    vm_compute. discriminate.
  - apply (getElementByUid_stale_prefix Sample.captured "x_0" Sample.snapshot1
             Reachable_captured Hs).
    vm_compute. discriminate.
  - apply (getElementByUid_stale_prefix Sample.captured "7" Sample.snapshot1
             Reachable_captured Hs).
    vm_compute. discriminate.
Defined.

(** ** selectPage *)

(** C7: in every reachable world the session's dialog handler is
    registered on at most one page, and at most once there; selecting A
    registers it on A, and selecting B afterwards leaves it registered on
    B alone, so A's registration is gone. *)
Theorem selectPage_one_listener w A B :
  Reachable w ->
  (forall p, page_dialogListeners (browser w) p <= 1)
  /\ (forall p q, 0 < page_dialogListeners (browser w) p ->
                  0 < page_dialogListeners (browser w) q -> p = q)
  /\ page_dialogListeners (browser (snd (selectPage A w))) A = 1
  /\ page_dialogListeners (browser (snd (selectPage B (snd (selectPage A w))))) B = 1
  /\ (forall p, p <> B ->
        page_dialogListeners (browser (snd (selectPage B (snd (selectPage A w))))) p = 0).
Proof.
  intros HR. destruct (Reachable_inv w HR) as (HL & _).
  pose proof (selectPage_listeners_inv A w HL) as HA.
  pose proof (selectPage_listeners_inv B _ HA) as HB.
  assert (Hsel : forall page w0 p,
            isPageSelected (snd (selectPage page w0)) p = Nat.eqb page p).
  { intros page w0 p. unfold isPageSelected. rewrite selectPage_ctx. reflexivity. }
  split; [|split; [|split; [|split]]].
  - intros p. rewrite (HL p). destruct (isPageSelected w p); lia.
  - intros p q. rewrite (HL p), (HL q). unfold isPageSelected.
    destruct (selectedPage (ctx w)) as [sel|]; [|lia].
    destruct (Nat.eqb_spec sel p), (Nat.eqb_spec sel q); lia.
  - rewrite (HA A), Hsel, Nat.eqb_refl. reflexivity.
  - rewrite (HB B), Hsel, Nat.eqb_refl. reflexivity.
  - intros p Hp. rewrite (HB p), Hsel.
    destruct (Nat.eqb_spec B p); [congruence | reflexivity].
Qed.

(** Selecting page 12 and then page 10 in the started sample session
    leaves the handler on page 10 and off page 12. *)
Lemma selectPage_one_listener_witness :
  page_dialogListeners
    (browser (snd (selectPage 10 (snd (selectPage 12 Sample.started))))) 10 = 1
  /\ page_dialogListeners
       (browser (snd (selectPage 10 (snd (selectPage 12 Sample.started))))) 12 = 0.
Proof.
  destruct (selectPage_one_listener Sample.started 12 10 Reachable_started)
    as (_ & _ & _ & H10 & H12).
  split; [exact H10 | apply H12; discriminate].
Defined.

(** ** createPagesSnapshot: the refresh *)

Lemma Reachable_devtools_selected : Reachable Sample.devtools_selected.
Proof.
  apply reach_selectPage, reach_createPagesSnapshot, reach_new. reflexivity.
Qed.

(** C3, as stated, fails: with a DevTools window selected and no page
    visible, the refresh leaves the page list empty but the selection in
    place, and getSelectedPage goes on returning the selected page. *)
Lemma createPagesSnapshot_selection_not_emptied :
  Reachable Sample.devtools_selected
  /\ ~ (pages (ctx (snd (createPagesSnapshot Sample.devtools_selected))) = [] ->
        selectedPage (ctx (snd (createPagesSnapshot Sample.devtools_selected))) = None
        /\ exists e, fst (getSelectedPage
                            (snd (createPagesSnapshot Sample.devtools_selected)))
                     = Throw e).
Proof.
  split; [exact Reachable_devtools_selected|].
  intros H. destruct H as [Hsel _]; [vm_compute; reflexivity|].
  vm_compute in Hsel. discriminate.
Qed.

Lemma auto_selected_cases w1 :
  match pages (ctx w1) with
  | [] => auto_selected w1 = None
  | first :: _ =>
      match selectedPage (ctx w1) with
      | Some sel =>
          auto_selected w1 = if page_in sel (pages (ctx w1)) then None else Some first
      | None => auto_selected w1 = Some first
      end
  end.
Proof.
  unfold auto_selected.
  destruct (selectedPage (ctx w1)), (pages (ctx w1)); reflexivity.
Qed.

(** C3, amended: in every reachable world the refresh lists the driver's
    enumeration filtered for visibility; the pages enumerated without an
    id get, in discovery order, the ids [nextPageId], [nextPageId + 1],
    ..., all above every id issued before, and pages that had an id keep
    it; if a page is visible and the selected page is none or not among
    the visible ones, the first visible page becomes selected; and if no
    page is visible the selection stays as it was, so that
    getSelectedPage completes afterwards as it did before. *)
Theorem createPagesSnapshot_refresh w :
  Reachable w ->
  let w' := snd (createPagesSnapshot w) in
  let allPages :=
    browser_pages (browser w) (experimentalIncludeAllPages (options (ctx w))) in
  let fresh := newly_seen (dom (pageIdMap (ctx w))) allPages in
  pages (ctx w') = List.filter (isVisible (options (ctx w)) (browser w)) allPages
  /\ nextPageId (ctx w') = nextPageId (ctx w) + length fresh
  /\ (forall k p, nth_error fresh k = Some p ->
                  pageIdMap (ctx w') !! p = Some (nextPageId (ctx w) + k))
  /\ (forall p i, pageIdMap (ctx w) !! p = Some i ->
                  pageIdMap (ctx w') !! p = Some i /\ i < nextPageId (ctx w))
  /\ selectedPage (ctx w')
     = match pages (ctx w') with
       | [] => selectedPage (ctx w)
       | first :: _ =>
           match selectedPage (ctx w) with
           | Some sel => if page_in sel (pages (ctx w')) then Some sel else Some first
           | None => Some first
           end
       end
  /\ (pages (ctx w') = [] -> getSelectedPage w' = (fst (getSelectedPage w), w')).
Proof.
  intros HR. cbv zeta. destruct (Reachable_inv w HR) as (_ & _ & HP).
  destruct (createPagesSnapshot_ctx w) as (Ep & Em & En & Es & _).
  destruct (refreshed_ctx w) as (Rp & Rm & Rn & Rs & _ & _ & _ & _ & Rb).
  destruct (assignPageId_fold
              (browser_pages (browser w) (experimentalIncludeAllPages (options (ctx w))))
              (ctx w)) as (N & A & B & C & _).
  rewrite Ep, Em, En, Rm, Rn.
  split; [exact Rp|]. split; [exact N|]. split; [exact A|]. split; [|split].
  - intros p i Hi. split; [|apply HP in Hi; lia].
    rewrite B; [exact Hi|]. intros Hf. apply C in Hf as [Hf _]. congruence.
  - rewrite Es. pose proof (auto_selected_cases (refreshed w)) as Hc.
    rewrite Rs in Hc.
    destruct (pages (ctx (refreshed w))) as [|first rest].
    + rewrite Hc. reflexivity.
    + destruct (selectedPage (ctx w)) as [sel|]; rewrite Hc; [|reflexivity].
      destruct (page_in sel (first :: rest)); reflexivity.
  - intros Hnil. rewrite createPagesSnapshot_world.
    pose proof (auto_selected_cases (refreshed w)) as Hc. rewrite Hnil in Hc.
    rewrite Hc. unfold getSelectedPage, bind, get, ret, throw. cbv beta iota.
    rewrite Rs, Rb.
    destruct (selectedPage (ctx w)) as [sel|]; [|reflexivity].
    destruct (page_isClosed (browser w) sel); reflexivity.
Qed.

(** The first refresh of the sample session lists pages 10 and 12, gives
    the three enumerated pages the ids 1 to 3 and selects page 10. *)
Lemma createPagesSnapshot_refresh_witness :
  pages (ctx Sample.started) = [10; 12]
  /\ nextPageId (ctx Sample.started) = 4
  /\ selectedPage (ctx Sample.started) = Some 10.
Proof.
  destruct (createPagesSnapshot_refresh (fresh_world Sample.opts Sample.chrome Sample.disk)
              (reach_new Sample.opts Sample.chrome Sample.disk (fun _ => eq_refl)))
    as (Hp & Hn & _ & _ & Hs & _).
  split; [exact Hp|]. split; [exact Hn | exact Hs].
Defined.

(** ** closePage *)

Lemma filter_comm {A} (f g : A -> bool) l :
  List.filter f (List.filter g l) = List.filter g (List.filter f l).
Proof.
  induction l as [|a l IH]; simpl; [reflexivity|].
  destruct (f a) eqn:Ef, (g a) eqn:Eg; simpl; rewrite ?Ef, ?Eg, IH; reflexivity.
Qed.

Lemma filter_other_id page l :
  ~ List.In page l -> List.filter (fun q => negb (Nat.eqb q page)) l = l.
Proof.
  induction l as [|a l IH]; simpl; intros Hn; [reflexivity|].
  destruct (Nat.eqb_spec a page) as [->|Hne]; simpl; [tauto|].
  rewrite IH by tauto. reflexivity.
Qed.

Lemma length_filter_other page l :
  List.NoDup l -> List.In page l ->
  S (length (List.filter (fun q => negb (Nat.eqb q page)) l)) = length l.
Proof.
  induction 1 as [|a l Ha Hl IH]; simpl; intros Hin; [contradiction|].
  destruct (Nat.eqb_spec a page) as [->|Hne]; simpl.
  - rewrite filter_other_id by exact Ha. reflexivity.
  - rewrite IH; [reflexivity|]. destruct Hin; [contradiction | assumption].
Qed.

Lemma Stdlib_NoDup_filter {A} (f : A -> bool) l :
  List.NoDup l -> List.NoDup (List.filter f l).
Proof.
  induction 1 as [|a l Ha Hl IH]; simpl; [constructor|].
  destruct (f a); [constructor|]; auto.
  intros Hin. apply filter_In in Hin as [Hin _]. contradiction.
Qed.

(** C4, as stated, fails: with two visible pages closePage succeeds and
    the session still lists two pages afterwards, although the driver
    now shows a single visible page; a second closePage, on that last
    page, succeeds as well. *)
Lemma closePage_keeps_page_list :
  length (pages (ctx Sample.started)) = 2
  /\ fst (closePage 3 Sample.started) = Return tt
  /\ ~ (length (pages (ctx (snd (closePage 3 Sample.started))))
        = length (pages (ctx Sample.started)) - 1)
  /\ List.filter (isVisible Sample.opts (browser (snd (closePage 3 Sample.started))))
        (browser_pages (browser (snd (closePage 3 Sample.started))) None) = [10]
  /\ fst (closePage 1 (snd (closePage 3 Sample.started))) = Return tt.
Proof.
  split; [reflexivity|]. split; [reflexivity|].
  split; [vm_compute; discriminate|]. split; reflexivity.
Qed.

(** C4, amended: when the session lists exactly one page, closePage
    throws the last-page error for any id and changes nothing; otherwise
    it looks the id up among the listed pages, throws the not-found error
    if none carries it, and else asks the driver to close that page
    without unload hooks and returns.  The session's own page list is
    not touched by closePage; when it was in sync with the driver it has
    that page removed, and so exactly one page fewer, after the next
    refresh. *)
Theorem closePage_outcome w pageId :
  match length (pages (ctx w)) with
  | 1 => closePage pageId w = (Throw (Err CLOSE_PAGE_ERROR None), w)
  | _ =>
      match List.find (fun p => option_nat_eqb (getPageId w p) pageId)
                      (pages (ctx w)) with
      | None => closePage pageId w = (Throw NO_PAGE_FOUND, w)
      | Some page =>
          closePage pageId w = (Return tt, with_browser (page_close page false) w)
          /\ List.In page (pages (ctx w))
          /\ getPageId w page = Some pageId
          /\ closeRequests (browser (snd (closePage pageId w)))
             = (closeRequests (browser w) ++ [(page, false)])%list
          /\ pages (ctx (snd (closePage pageId w))) = pages (ctx w)
          /\ (in_sync w ->
              pages (ctx (snd (createPagesSnapshot (snd (closePage pageId w)))))
              = List.filter (fun q => negb (Nat.eqb q page)) (pages (ctx w))
              /\ S (length (pages (ctx (snd (createPagesSnapshot
                                              (snd (closePage pageId w)))))))
                 = length (pages (ctx w)))
      end
  end.
Proof.
  rewrite closePage_eq. unfold getPageId.
  destruct (Nat.eqb_spec (length (pages (ctx w))) 1) as [->|Hlen]; [reflexivity|].
  assert (Hbody :
    match List.find (fun p => option_nat_eqb (pageIdMap (ctx w) !! p) pageId)
                    (pages (ctx w)) with
    | None => True
    | Some page =>
        List.In page (pages (ctx w))
        /\ pageIdMap (ctx w) !! page = Some pageId
        /\ (in_sync w ->
            pages (ctx (snd (createPagesSnapshot
                               (with_browser (page_close page false) w))))
            = List.filter (fun q => negb (Nat.eqb q page)) (pages (ctx w))
            /\ S (length (pages (ctx (snd (createPagesSnapshot
                               (with_browser (page_close page false) w))))))
               = length (pages (ctx w)))
    end).
  { destruct (List.find _ _) as [page|] eqn:Ef; [|exact I].
    apply find_some in Ef as [Hin Hid]. split; [exact Hin|]. split.
    - unfold option_nat_eqb in Hid. destruct (pageIdMap (ctx w) !! page) as [i|];
        [|discriminate].
      apply Nat.eqb_eq in Hid. congruence.
    - intros (Hnd & Hsync).
      assert (Hp : pages (ctx (snd (createPagesSnapshot
                                      (with_browser (page_close page false) w))))
                   = List.filter (fun q => negb (Nat.eqb q page)) (pages (ctx w))).
      { destruct (createPagesSnapshot_ctx (with_browser (page_close page false) w))
          as (-> & _).
        destruct (refreshed_ctx (with_browser (page_close page false) w)) as (-> & _).
        simpl. rewrite Hsync. rewrite filter_comm. reflexivity. }
      split; [exact Hp|]. rewrite Hp. apply length_filter_other; [|exact Hin].
      rewrite Hsync. apply Stdlib_NoDup_filter, Hnd. }
  destruct (length (pages (ctx w))) as [|[|n]] eqn:El; [|congruence|];
    destruct (List.find _ _) as [page|]; try reflexivity;
    destruct Hbody as (Hin & Hid & Hp); simpl snd;
    (split; [reflexivity|]); (split; [exact Hin|]); (split; [exact Hid|]);
    (split; [reflexivity|]); (split; [reflexivity | exact Hp]).
Qed.

Lemma in_sync_started : in_sync Sample.started.
Proof.
  split; [|reflexivity]. simpl.
  repeat constructor; simpl; intuition discriminate.
Qed.

(** In the started sample session, closing page id 3 (page 12) leaves
    the session's list at two pages until the refresh, which lists page
    10 alone. *)
Lemma closePage_outcome_witness :
  fst (closePage 3 Sample.started) = Return tt
  /\ pages (ctx (snd (closePage 3 Sample.started))) = [10; 12]
  /\ pages (ctx (snd (createPagesSnapshot (snd (closePage 3 Sample.started))))) = [10].
Proof.
  pose proof (closePage_outcome Sample.started 3) as H.
  change (length (pages (ctx Sample.started))) with 2 in H.
  change (List.find (fun p => option_nat_eqb (getPageId Sample.started p) 3)
            (pages (ctx Sample.started))) with (Some 12) in H.
  cbv iota in H. destruct H as (Hc & _ & _ & _ & Hp & Hr).
  destruct (Hr in_sync_started) as (Hr1 & _).
  split; [rewrite Hc; reflexivity|]. split; [exact Hp | exact Hr1].
Defined.

(** ** McpResponse.format *)

Lemma fold_left_push {A} (l acc : list A) :
  fold_left JsString.push l acc = (acc ++ l)%list.
Proof.
  revert acc. induction l as [|a l IH]; intros acc; simpl.
  - rewrite app_nil_r. reflexivity.
  - rewrite IH. unfold JsString.push. rewrite <- app_assoc. reflexivity.
Qed.

Lemma fold_left_push_map {A B} (f : A -> B) (l : list A) (acc : list B) :
  fold_left (fun parts a => JsString.push parts (f a)) l acc
  = (acc ++ List.map f l)%list.
Proof.
  revert acc. induction l as [|a l IH]; intros acc; simpl.
  - rewrite app_nil_r. reflexivity.
  - rewrite IH. unfold JsString.push. rewrite <- app_assoc. reflexivity.
Qed.

Lemma format_lines r toolName w formattedSnapshot :
  format r toolName w formattedSnapshot
  = TextContent (spec_text r toolName w formattedSnapshot) :: spec_images r.
Proof.
  unfold format, spec_text, spec_images, getDialog, getPages, spec_header,
    spec_dialog_section, spec_pages_section, spec_snapshot_section.
  cbv zeta. f_equal. f_equal.
  destruct (dialog (ctx w)) as [d|], (includePages r);
    destruct formattedSnapshot as [text|]; try destruct (JsString.truthy text);
    rewrite ?fold_left_push, ?fold_left_push_map; unfold JsString.push;
    rewrite ?fold_left_push_map, <- ?app_assoc, ?app_nil_r; reflexivity.
Qed.

(** The layout of [format]: the blocks are one text block followed by
    the attached images in attachment order; the
    text is the newline-joined sequence of the header line naming the
    tool, the appended lines in order, one notice for a pending dialog
    (none otherwise) naming its type and message, and its default value
    for a prompt, the pages section when pages were requested, one
    [id: url] line per listed page with the selected one marked, and the
    snapshot section when a non-empty rendering is supplied.  In a
    reachable world every listed page has an id to print. *)
Lemma format_layout r toolName w formattedSnapshot :
  format r toolName w formattedSnapshot
  = TextContent
      (JsString.join JsString.newline
         (spec_header toolName ++ textResponseLines r ++ spec_dialog_section w
          ++ spec_pages_section r w ++ spec_snapshot_section formattedSnapshot))
    :: List.map (fun i => ImageContent (image_data i) (image_mimeType i)) (images r)
  /\ (forall d, dialog (ctx w) = Some d ->
        spec_dialog_section w
        = ["# Open dialog" +:+ JsString.newline
           +:+ DialogType_to_string (dialog_type d) +:+ ": " +:+ dialog_message d
           +:+ match dialog_type d with
               | prompt => " (default value: " +:+ JsString.dquote
                           +:+ dialog_defaultValue d +:+ JsString.dquote +:+ ")"
               | _ => ""
               end
           +:+ "." +:+ JsString.newline
           +:+ "Call handle_dialog to handle it before continuing."])
  /\ (dialog (ctx w) = None -> spec_dialog_section w = [])
  /\ (Reachable w ->
      forall page, List.In page (pages (ctx w)) ->
        exists id, pageIdMap (ctx w) !! page = Some id
          /\ page_line w page
             = JsString.of_nat id +:+ ": " +:+ page_url (browser w) page
               +:+ (if isPageSelected w page then " [selected]" else "")).
Proof.
  split; [apply format_lines|]. split; [|split].
  - intros d Hd. unfold spec_dialog_section. rewrite Hd. reflexivity.
  - intros Hd. unfold spec_dialog_section. rewrite Hd. reflexivity.
  - intros HR page Hin.
    destruct (Reachable_inv w HR) as (_ & _ & (_ & _ & _ & Hid)).
    destruct (Hid page Hin) as [id Hp]. exists id. split; [exact Hp|].
    unfold page_line, getPageId. rewrite Hp. reflexivity.
Qed.

Lemma Reachable_asking : Reachable Sample.asking.
Proof.
  apply (reach_dialog_event Sample.started 10); [exact Reachable_started|].
  vm_compute. lia.
Qed.

(** The sample response, finalized while the confirm dialog is pending. *)
Lemma format_layout_witness :
  format Sample.response "list_pages" Sample.asking None
  = [TextContent
       (JsString.join JsString.newline
          ["# list_pages response"; "first"; "second";
           "# Open dialog" +:+ JsString.newline
           +:+ "confirm: Leave the page?." +:+ JsString.newline
           +:+ "Call handle_dialog to handle it before continuing.";
           "## Pages"; "1: about:blank [selected]"; "3: about:blank"]);
     ImageContent "aGVsbG8=" "image/png"].
Proof.
  destruct (format_layout Sample.response "list_pages" Sample.asking None)
    as (H & _ & _ & Hids).
  destruct (Hids Reachable_asking 12) as (id & Hid & _);
    [right; left; reflexivity|].
  rewrite H. vm_compute. reflexivity.
Defined.

(** ** McpResponse.handle with a file path *)

Lemma bind_Return {A B} (m : M A) (k : A -> M B) w a w1 :
  m w = (Return a, w1) -> bind m k w = k a w1.
Proof. intros H. unfold bind. rewrite H. reflexivity. Qed.

Lemma bind_Throw {A B} (m : M A) (k : A -> M B) w e w1 :
  m w = (Throw e, w1) -> bind m k w = (Throw e, w1).
Proof. intros H. unfold bind. rewrite H. reflexivity. Qed.

Lemma bind_assoc {A B C} (m : M A) (f : A -> M B) (g : B -> M C) w :
  bind (bind m f) g w = bind m (fun x => bind (f x) g) w.
Proof. unfold bind. destruct (m w) as [[a|e] w1]; reflexivity. Qed.

Lemma bind_get {B} (k : World -> M B) w : bind get k w = k w w.
Proof. reflexivity. Qed.

Section HandleProperties.

Variable formatSnapshotNode : TextSnapshotNode -> TextSnapshot -> string.

(** C9: when the response asked for the snapshot with a non-empty file
    path, the refresh (if requested) and the capture have returned, and
    a snapshot is held, then [handle] writes the bytes of the rendered
    snapshot to the resolved path and returns the response formatted
    with the line [Saved snapshot to <path>.] as its snapshot section,
    in place of the rendering; if the write fails, [handle] logs the
    error and throws an error that carries it as its cause. *)
Theorem handle_saves_snapshot r toolName w params filePath w1 snap :
  snapshotParams r = Some params ->
  sp_filePath params = Some filePath ->
  filePath <> EmptyString ->
  (let* _ := (if includePages r
              then (let* _ := createPagesSnapshot in ret tt)
              else ret tt) in
   createTextSnapshot (default_verbose (sp_verbose params))) w = (Return tt, w1) ->
  textSnapshot (ctx w1) = Some snap ->
  let text := formatSnapshotNode (root snap) snap in
  let path := path_resolve (fs w1) filePath in
  let saved := "Saved snapshot to " +:+ filePath +:+ "." in
  match fs_writeFails (fs w1) path with
  | None =>
      let w2 :=
        with_fs (fun f => mkFS (<[path := encode text]> (fs_files f))
                               (fs_writeFails f) (path_resolve f)) w1 in
      handle formatSnapshotNode r toolName w
      = (Return (format r toolName w2 (Some saved)), w2)
      /\ fs_files (fs w2) !! path = Some (encode text)
      /\ spec_snapshot_section (Some saved) = ["## Latest page snapshot"; saved]
  | Some cause =>
      handle formatSnapshotNode r toolName w
      = (Throw (Err "Could not save a screenshot to a file" (Some cause)),
         mkWorld (ctx w1) (browser w1) (fs w1)
                 (logged w1 ++ [[LogError cause]]))
  end.
Proof.
  intros Hparams Hpath Hne Hpre Hsnap. cbv zeta.
  assert (Htruthy : JsString.truthy filePath = true)
    by (destruct filePath; [congruence | reflexivity]).
  unfold handle, handle_snapshot. rewrite Hparams, Hpath, Htruthy.
  destruct ((if includePages r
             then (let* _ := createPagesSnapshot in ret tt)
             else ret tt) w) as [[[]|e] wa] eqn:HA.
  2:{ rewrite (bind_Throw _ _ _ _ _ HA) in Hpre. discriminate. }
  rewrite (bind_Return _ _ _ _ _ HA) in Hpre.
  rewrite (bind_Return _ _ _ _ _ HA).
  rewrite bind_assoc, (bind_Return _ _ _ _ _ Hpre).
  rewrite bind_assoc, bind_get. unfold getTextSnapshot. rewrite Hsnap.
  unfold saveFile, try_catch, fs_writeFile, logger.
  unfold bind, get, modify, ret, throw.
  destruct (fs_writeFails (fs w1) (path_resolve (fs w1) filePath)) as [cause|].
  - reflexivity.
  - split; [reflexivity|]. split; [apply lookup_insert_eq | reflexivity].
Qed.

End HandleProperties.

(** In the started sample session the snapshot goes to [/cwd/out.txt];
    under the read-only directory the write is refused and [handle]
    throws with the refusal as cause. *)
Lemma handle_saves_snapshot_witness :
  fst (handle Sample.render (Sample.to_file "out.txt") "take_snapshot" Sample.started)
  = Return [TextContent
              (JsString.join JsString.newline
                 ["# take_snapshot response"; "## Latest page snapshot";
                  "Saved snapshot to out.txt."])]
  /\ fs_files (fs (snd (handle Sample.render (Sample.to_file "out.txt")
                          "take_snapshot" Sample.started))) !! "/cwd/out.txt"
     = Some (encode "RootWebArea")
  /\ fst (handle Sample.render (Sample.to_file "readonly/out.txt") "take_snapshot"
            Sample.started)
     = Throw (Err "Could not save a screenshot to a file"
                  (Some (Err "EACCES: permission denied" None))).
Proof.
  assert (Hs : textSnapshot (ctx Sample.captured) = Some Sample.snapshot1)
    by (vm_compute; reflexivity).
  pose proof (handle_saves_snapshot Sample.render (Sample.to_file "out.txt")
                "take_snapshot" Sample.started
                (mkSnapshotParams None (Some "out.txt")) "out.txt"
                Sample.captured Sample.snapshot1
                eq_refl eq_refl ltac:(discriminate) eq_refl Hs) as Hok.
  pose proof (handle_saves_snapshot Sample.render (Sample.to_file "readonly/out.txt")
                "take_snapshot" Sample.started
                (mkSnapshotParams None (Some "readonly/out.txt")) "readonly/out.txt"
                Sample.captured Sample.snapshot1
                eq_refl eq_refl ltac:(discriminate) eq_refl Hs) as Hro.
  cbv zeta in Hok, Hro.
  change (fs_writeFails (fs Sample.captured)
            (path_resolve (fs Sample.captured) "out.txt")) with (@None JsError) in Hok.
  change (fs_writeFails (fs Sample.captured)
            (path_resolve (fs Sample.captured) "readonly/out.txt"))
    with (Some (Err "EACCES: permission denied" None)) in Hro.
  cbv iota in Hok, Hro. destruct Hok as (Hok & Hfile & _).
  rewrite Hok, Hro. split; [vm_compute; reflexivity|].
  split; [vm_compute; reflexivity | reflexivity].
Defined.

(** ** McpResponse.handle: what a finalized response shows *)

Lemma handle_snapshot_spec f r wa fs wb :
  handle_snapshot f r wa = (Return fs, wb) ->
  fs = spec_formattedSnapshot f r wb /\ (Reachable wa -> Reachable wb).
Proof.
  unfold handle_snapshot, spec_formattedSnapshot.
  destruct (snapshotParams r) as [params|].
  2:{ intros [= <- <-]. auto. }
  destruct (createTextSnapshot (default_verbose (sp_verbose params)) wa)
    as [[[]|e] wc] eqn:HC.
  2:{ rewrite (bind_Throw _ _ _ _ _ HC). discriminate. }
  rewrite (bind_Return _ _ _ _ _ HC), bind_get. unfold getTextSnapshot.
  assert (HRc : Reachable wa -> Reachable wc).
  { intros HR. apply (reach_createTextSnapshot wa (default_verbose (sp_verbose params)))
      in HR. rewrite HC in HR. exact HR. }
  destruct (textSnapshot (ctx wc)) as [snap|] eqn:Hs.
  2:{ intros [= <- <-]. rewrite Hs. auto. }
  destruct (sp_filePath params) as [filePath|].
  2:{ intros [= <- <-]. rewrite Hs. auto. }
  destruct (JsString.truthy filePath).
  2:{ intros [= <- <-]. rewrite Hs. auto. }
  destruct (saveFile (encode (f (root snap) snap)) filePath wc) as [[name|e] wd] eqn:HF.
  2:{ rewrite (bind_Throw _ _ _ _ _ HF). discriminate. }
  rewrite (bind_Return _ _ _ _ _ HF). intros [= <- <-].
  destruct (saveFile_frame (encode (f (root snap) snap)) filePath wc) as (Ec & _).
  rewrite HF in Ec. simpl in Ec. rewrite Ec, Hs. split; [reflexivity|].
  intros HR. apply HRc in HR.
  apply (reach_saveFile wc (encode (f (root snap) snap)) filePath) in HR.
  rewrite HF in HR. exact HR.
Qed.

Lemma handle_spec f r toolName w blocks w2 :
  handle f r toolName w = (Return blocks, w2) ->
  blocks = format r toolName w2 (spec_formattedSnapshot f r w2)
  /\ (Reachable w -> Reachable w2).
Proof.
  unfold handle.
  destruct ((if includePages r
             then (let* _ := createPagesSnapshot in ret tt)
             else ret tt) w) as [[[]|e] wa] eqn:HA.
  2:{ rewrite (bind_Throw _ _ _ _ _ HA). discriminate. }
  rewrite (bind_Return _ _ _ _ _ HA).
  assert (HRa : Reachable w -> Reachable wa).
  { intros HR. destruct (includePages r).
    - apply reach_createPagesSnapshot in HR. unfold bind, ret in HA.
      destruct (createPagesSnapshot w) as [[l|e] w'];
        [injection HA as <-; exact HR | discriminate].
    - injection HA as <-. exact HR. }
  destruct (handle_snapshot f r wa) as [[fs|e] wb] eqn:HS.
  2:{ rewrite (bind_Throw _ _ _ _ _ HS). discriminate. }
  rewrite (bind_Return _ _ _ _ _ HS), bind_get. intros [= <- <-].
  destruct (handle_snapshot_spec f r wa fs wb HS) as (-> & HRb). auto.
Qed.

(** C8, as stated, fails: with page 12 selected, which has no
    accessibility tree, and no snapshot held, a response that requests
    the snapshot is finalized to the header alone; with the snapshot of
    page 10 held, the same request shows that earlier snapshot. *)
Lemma handle_requested_snapshot_absent :
  snapshotParams (includeSnapshot None new_McpResponse)
  = Some (mkSnapshotParams (Some false) None)
  /\ fst (handle Sample.render (includeSnapshot None new_McpResponse) "take_snapshot"
            Sample.blank_unheld)
     = Return [TextContent "# take_snapshot response"]
  /\ selectedPage (ctx Sample.on_blank) = Some 12
  /\ fst (handle Sample.render (includeSnapshot None new_McpResponse) "take_snapshot"
            Sample.on_blank)
     = Return [TextContent
                 (JsString.join JsString.newline
                    ["# take_snapshot response"; "## Latest page snapshot";
                     "RootWebArea"])].
Proof.
  split; [reflexivity|]. split; [vm_compute; reflexivity|].
  split; [reflexivity | vm_compute; reflexivity].
Qed.

(** C8, amended: whenever [handle] returns, its blocks are one text
    block followed by the attached images in attachment order, and the
    text is the newline-joined sequence of: the header line naming the
    tool; the appended lines in order; one notice for a pending dialog
    (none otherwise) naming its type and message, and its default value
    for a prompt; the pages section when pages were requested, one
    [id: url] line per listed page with the selected one marked; and the
    snapshot section, which is there exactly when a snapshot was
    requested and the session holds one when [handle] ends, be it the
    one just captured or, the capture having yielded no tree, an
    earlier one: it carries the path-reference line when a non-empty
    file path was given, and else the rendering of the held snapshot if
    that is not empty.  Starting from a reachable world every listed
    page has an id to print. *)
Theorem handle_layout f r toolName w blocks w2 :
  handle f r toolName w = (Return blocks, w2) ->
  blocks
  = TextContent
      (JsString.join JsString.newline
         (spec_header toolName ++ textResponseLines r ++ spec_dialog_section w2
          ++ spec_pages_section r w2
          ++ spec_snapshot_section (spec_formattedSnapshot f r w2)))
    :: List.map (fun i => ImageContent (image_data i) (image_mimeType i)) (images r)
  /\ (forall d, dialog (ctx w2) = Some d ->
        spec_dialog_section w2
        = ["# Open dialog" +:+ JsString.newline
           +:+ DialogType_to_string (dialog_type d) +:+ ": " +:+ dialog_message d
           +:+ match dialog_type d with
               | prompt => " (default value: " +:+ JsString.dquote
                           +:+ dialog_defaultValue d +:+ JsString.dquote +:+ ")"
               | _ => ""
               end
           +:+ "." +:+ JsString.newline
           +:+ "Call handle_dialog to handle it before continuing."])
  /\ (dialog (ctx w2) = None -> spec_dialog_section w2 = [])
  /\ (snapshotParams r = None \/ textSnapshot (ctx w2) = None ->
      spec_snapshot_section (spec_formattedSnapshot f r w2) = [])
  /\ (forall params snap filePath,
        snapshotParams r = Some params -> textSnapshot (ctx w2) = Some snap ->
        sp_filePath params = Some filePath -> filePath <> EmptyString ->
        spec_snapshot_section (spec_formattedSnapshot f r w2)
        = ["## Latest page snapshot"; "Saved snapshot to " +:+ filePath +:+ "."])
  /\ (forall params snap,
        snapshotParams r = Some params -> textSnapshot (ctx w2) = Some snap ->
        sp_filePath params = None \/ sp_filePath params = Some EmptyString ->
        spec_snapshot_section (spec_formattedSnapshot f r w2)
        = if JsString.truthy (f (root snap) snap)
          then ["## Latest page snapshot"; f (root snap) snap]
          else [])
  /\ (Reachable w ->
      forall page, List.In page (pages (ctx w2)) ->
        exists id, pageIdMap (ctx w2) !! page = Some id
          /\ page_line w2 page
             = JsString.of_nat id +:+ ": " +:+ page_url (browser w2) page
               +:+ (if isPageSelected w2 page then " [selected]" else "")).
Proof.
  intros H. destruct (handle_spec f r toolName w blocks w2 H) as (-> & HR2).
  split; [apply format_lines|]. split; [|split; [|split; [|split; [|split]]]].
  - intros d Hd. unfold spec_dialog_section. rewrite Hd. reflexivity.
  - intros Hd. unfold spec_dialog_section. rewrite Hd. reflexivity.
  - unfold spec_formattedSnapshot. intros [->| ->]; [reflexivity|].
    destruct (snapshotParams r); reflexivity.
  - unfold spec_formattedSnapshot. intros params snap filePath -> -> -> Hne.
    destruct filePath; [congruence | reflexivity].
  - unfold spec_formattedSnapshot. intros params snap -> -> [->| ->]; reflexivity.
  - intros HR page Hin.
    destruct (Reachable_inv w2 (HR2 HR)) as (_ & _ & (_ & _ & _ & Hid)).
    destruct (Hid page Hin) as [id Hp]. exists id. split; [exact Hp|].
    unfold page_line, getPageId. rewrite Hp. reflexivity.
Qed.

(** The snapshot and the page list requested in the started sample
    session. *)
Lemma handle_layout_witness :
  fst (handle Sample.render
         (includeSnapshot None (setIncludePages true new_McpResponse))
         "take_snapshot" Sample.started)
  = Return [TextContent
              (JsString.join JsString.newline
                 ["# take_snapshot response"; "## Pages";
                  "1: about:blank [selected]"; "3: about:blank";
                  "## Latest page snapshot"; "RootWebArea"])].
Proof.
  destruct (handle Sample.render
              (includeSnapshot None (setIncludePages true new_McpResponse))
              "take_snapshot" Sample.started) as [[blocks|e] w2] eqn:H;
    [|vm_compute in H; discriminate].
  destruct (handle_layout _ _ _ _ _ _ H) as (-> & _).
  assert (E : w2 = snd (handle Sample.render
                          (includeSnapshot None (setIncludePages true new_McpResponse))
                          "take_snapshot" Sample.started))
    by (rewrite H; reflexivity).
  rewrite E. vm_compute. reflexivity.
Defined.

(** ** Steps of a session *)

Lemma step_Reachable w w' : Reachable w -> step w w' -> Reachable w'.
Proof.
  intros HR Hs.
  destruct Hs as [w|w page|w pageId|w verbose|w|w page d Hl|w data filename|w b f Hb].
  - apply reach_createPagesSnapshot, HR.
  - apply reach_selectPage, HR.
  - apply reach_closePage, HR.
  - apply reach_createTextSnapshot, HR.
  - apply reach_clearDialog, HR.
  - eapply reach_dialog_event; eassumption.
  - apply reach_saveFile, HR.
  - apply reach_environment; assumption.
Qed.

Lemma rtc_step_Reachable w w' : Reachable w -> rtc step w w' -> Reachable w'.
Proof.
  intros HR Hs. induction Hs as [|x y z Hxy _ IH]; [exact HR|].
  apply IH. eapply step_Reachable; eassumption.
Qed.

Lemma ids_grow_same c c' :
  pageIdMap c' = pageIdMap c -> nextPageId c' = nextPageId c ->
  nextSnapshotId c <= nextSnapshotId c' -> ids_grow c c'.
Proof.
  intros Em En Hs. unfold ids_grow. rewrite Em, En.
  split; [lia|]. split; [exact Hs|]. split; [auto|].
  intros q j Hq Hj. congruence.
Qed.

Lemma createPagesSnapshot_ids_grow w :
  ids_grow (ctx w) (ctx (snd (createPagesSnapshot w))).
Proof.
  destruct (createPagesSnapshot_ctx w) as (_ & Em & En & _ & _ & _ & Es & _).
  destruct (refreshed_ctx w) as (_ & Rm & Rn & _).
  destruct (assignPageId_fold
              (browser_pages (browser w) (experimentalIncludeAllPages (options (ctx w))))
              (ctx w)) as (N & A & B & C & _).
  unfold ids_grow. rewrite Em, En, Es, Rm, Rn.
  split; [lia|]. split; [lia|]. split.
  - intros p i Hi. rewrite B; [exact Hi|].
    intros Hf. apply C in Hf as [Hf _]. congruence.
  - intros q j Hq Hj.
    destruct (in_dec Nat.eq_dec q
                (newly_seen (dom (pageIdMap (ctx w)))
                   (browser_pages (browser w)
                      (experimentalIncludeAllPages (options (ctx w)))))) as [Hf|Hf].
    + apply In_nth_error in Hf as [k Hk]. rewrite (A k q Hk) in Hj.
      injection Hj as <-. lia.
    + rewrite (B q Hf) in Hj. congruence.
Qed.

Lemma step_ids_grow w w' : step w w' -> ids_grow (ctx w) (ctx w').
Proof.
  intros Hs.
  destruct Hs as [w|w page|w pageId|w verbose|w|w page d Hl|w data filename|w b f Hb].
  - apply createPagesSnapshot_ids_grow.
  - rewrite selectPage_ctx. apply ids_grow_same; simpl; auto.
  - destruct (closePage_frame pageId w) as (-> & _).
    apply ids_grow_same; auto.
  - destruct (createTextSnapshot_cases verbose w)
      as [->|(page & rootNode & Hp & Ht)]; [apply ids_grow_same; auto|].
    rewrite (createTextSnapshot_capture _ _ _ _ Hp Ht).
    apply ids_grow_same; simpl; auto.
  - apply ids_grow_same; simpl; auto.
  - apply ids_grow_same; simpl; auto.
  - destruct (saveFile_frame data filename w) as (-> & _).
    apply ids_grow_same; auto.
  - apply ids_grow_same; simpl; auto.
Qed.

Lemma rtc_step_ids_grow w w' : rtc step w w' -> ids_grow (ctx w) (ctx w').
Proof.
  induction 1 as [x|x y z Hxy _ IH].
  - apply ids_grow_same; auto.
  - apply step_ids_grow in Hxy.
    destruct Hxy as (N1 & S1 & K1 & F1), IH as (N2 & S2 & K2 & F2).
    split; [lia|]. split; [lia|]. split; [auto|].
    intros q j Hq Hj. destruct (pageIdMap (ctx y) !! q) as [j'|] eqn:Ey.
    + pose proof (K2 q j' Ey) as Hj'. rewrite Hj in Hj'. injection Hj' as <-.
      eapply F1; eassumption.
    + pose proof (F2 q j Ey Hj). lia.
Qed.

Lemma getPageById_eq pageId w :
  getPageById pageId w
  = (match List.find (fun p => option_nat_eqb (pageIdMap (ctx w) !! p) pageId)
                     (pages (ctx w)) with
     | Some page => Return page
     | None => Throw NO_PAGE_FOUND
     end, w).
Proof. unfold getPageById. run_monad. destruct (List.find _ _); reflexivity. Qed.

Lemma option_nat_eqb_true o n : option_nat_eqb o n = true <-> o = Some n.
Proof.
  destruct o as [k|]; simpl; [|split; discriminate].
  rewrite Nat.eqb_eq. split; congruence.
Qed.

(** X1: page ids and pages determine each other on the listed pages. *)
Theorem getPageById_getPageId w :
  Reachable w ->
  (forall page i, List.In page (pages (ctx w)) -> getPageId w page = Some i ->
                  getPageById i w = (Return page, w))
  /\ (forall i page, fst (getPageById i w) = Return page ->
                     List.In page (pages (ctx w)) /\ getPageId w page = Some i)
  /\ (forall i, i = 0 \/ nextPageId (ctx w) <= i ->
                getPageById i w = (Throw NO_PAGE_FOUND, w))
  /\ (forall page, List.In page (pages (ctx w)) ->
                   exists i, getPageId w page = Some i /\ 1 <= i < nextPageId (ctx w)).
Proof.
  intros HR. destruct (Reachable_inv w HR) as (_ & _ & (_ & Hlt & Hinj & Hid)).
  unfold getPageId. split; [|split; [|split]].
  - intros page i Hin Hi. rewrite getPageById_eq.
    destruct (List.find _ _) as [q|] eqn:Ef.
    + apply find_some in Ef as [_ Hq]. apply option_nat_eqb_true in Hq.
      rewrite (Hinj q page i Hq Hi). reflexivity.
    + apply (find_none _ _ Ef) in Hin.
      apply option_nat_eqb_true in Hi. congruence.
  - intros i page. rewrite getPageById_eq. simpl.
    destruct (List.find _ _) as [q|] eqn:Ef; [|discriminate].
    intros [= <-]. apply find_some in Ef as [Hin Hq].
    apply option_nat_eqb_true in Hq. auto.
  - intros i Hi. rewrite getPageById_eq.
    destruct (List.find _ _) as [q|] eqn:Ef; [|reflexivity].
    apply find_some in Ef as [_ Hq]. apply option_nat_eqb_true in Hq.
    apply Hlt in Hq. lia.
  - intros page Hin. destruct (Hid page Hin) as [i Hi].
    exists i. split; [exact Hi | eapply Hlt; exact Hi].
Qed.

(** In the started sample session id 3 names page 12, and back. *)
Lemma getPageById_getPageId_witness :
  getPageById 3 Sample.started = (Return 12, Sample.started)
  /\ getPageById 2 Sample.started = (Throw NO_PAGE_FOUND, Sample.started).
Proof.
  destruct (getPageById_getPageId Sample.started Reachable_started) as (H1 & _).
  split; [apply H1; [right; left; reflexivity | reflexivity] | reflexivity].
Defined.

(** X2: over any run of a session a page keeps the id it has, no other
    page ever gets that id, and ids given later are not below the
    counter of the earlier moment. *)
Theorem page_ids_never_change w w' :
  Reachable w -> rtc step w w' ->
  nextPageId (ctx w) <= nextPageId (ctx w')
  /\ (forall p i, getPageId w p = Some i -> getPageId w' p = Some i)
  /\ (forall p q i, getPageId w p = Some i -> getPageId w' q = Some i -> q = p)
  /\ (forall q j, getPageId w q = None -> getPageId w' q = Some j ->
                  nextPageId (ctx w) <= j).
Proof.
  intros HR Hs. pose proof (rtc_step_Reachable w w' HR Hs) as HR'.
  destruct (Reachable_inv w' HR') as (_ & _ & (_ & _ & Hinj & _)).
  destruct (rtc_step_ids_grow w w' Hs) as (N & _ & K & F).
  unfold getPageId. split; [exact N|]. split; [exact K|]. split; [|exact F].
  intros p q i Hp Hq. apply (Hinj q p i Hq). apply K, Hp.
Qed.

(** Closing page 12 and refreshing: page 10 still has id 1. *)
Lemma page_ids_never_change_witness :
  getPageId (snd (createPagesSnapshot (snd (closePage 3 Sample.started)))) 10 = Some 1
  /\ getPageId (snd (createPagesSnapshot (snd (closePage 3 Sample.started)))) 12 = Some 3.
Proof.
  destruct (page_ids_never_change Sample.started
              (snd (createPagesSnapshot (snd (closePage 3 Sample.started))))
              Reachable_started) as (_ & K & _).
  - eapply rtc_l; [apply step_closePage|].
    eapply rtc_l; [apply step_createPagesSnapshot|]. apply rtc_refl.
  - split; apply K; reflexivity.
Defined.

(** ** Snapshots over time *)

Lemma assignIds_key_prefix sid rootNode u x :
  as_idToNode (snd (assignIds sid rootNode (mkAssign 0 ∅))) !! u = Some x ->
  uid_prefix u = JsString.of_nat sid /\ ts_id x = u.
Proof.
  intros Hu. apply assignIds_idToNode in Hu as [Hx <-]. split; [|reflexivity].
  destruct (assignIds_assigned sid rootNode (mkAssign 0 ∅)) as (_ & I & _).
  assert (Hid : List.In (ts_id x)
                  (List.map ts_id (ts_preorder (fst (assignIds sid rootNode
                                                       (mkAssign 0 ∅))))))
    by (apply in_map; exact Hx).
  rewrite I in Hid. apply in_map_iff in Hid as (k & <- & _).
  apply uid_prefix_uid_of.
Qed.

Lemma uid_prefix_inv_same w w' :
  textSnapshot (ctx w') = textSnapshot (ctx w) -> uid_prefix_inv w -> uid_prefix_inv w'.
Proof. unfold uid_prefix_inv. intros ->. auto. Qed.

Lemma Reachable_uid_prefix w : Reachable w -> uid_prefix_inv w.
Proof.
  induction 1 as [opts b f Hb | w _ IH | w page _ IH | w pageId _ IH
                 | w verbose _ IH | w _ IH | w page d _ IH _
                 | w data filename _ IH | w b f _ IH Hb].
  - intros snap u x Hs. discriminate.
  - eapply uid_prefix_inv_same; [|exact IH].
    destruct (createPagesSnapshot_ctx w) as (_ & _ & _ & _ & Et & _). exact Et.
  - eapply uid_prefix_inv_same; [|exact IH]. rewrite selectPage_ctx. reflexivity.
  - eapply uid_prefix_inv_same; [|exact IH].
    destruct (closePage_frame pageId w) as (-> & _). reflexivity.
  - destruct (createTextSnapshot_cases verbose w)
      as [->|(page & rootNode & Hp & Ht)]; [exact IH|].
    rewrite (createTextSnapshot_capture _ _ _ _ Hp Ht).
    intros snap u x Hs Hu. simpl in Hs. injection Hs as <-. simpl in Hu.
    simpl snapshotId. eapply assignIds_key_prefix. exact Hu.
  - exact IH.
  - exact IH.
  - eapply uid_prefix_inv_same; [|exact IH].
    destruct (saveFile_frame data filename w) as (-> & _). reflexivity.
  - exact IH.
Qed.

(** X3: once a later capture has succeeded, every uid that carries the
    id of the earlier snapshot, the keys of that snapshot among them, is
    reported stale. *)
Theorem superseded_uids_are_stale w w' snap :
  Reachable w -> rtc step w w' ->
  textSnapshot (ctx w) = Some snap ->
  nextSnapshotId (ctx w) < nextSnapshotId (ctx w') ->
  (forall uid, uid_prefix uid = snapshotId snap ->
               getElementByUid uid w' = (Throw STALE_SNAPSHOT, w'))
  /\ (forall uid node, idToNode snap !! uid = Some node ->
               getElementByUid uid w' = (Throw STALE_SNAPSHOT, w')).
Proof.
  intros HR Hs Hsnap Hlt.
  pose proof (rtc_step_Reachable w w' HR Hs) as HR'.
  destruct (Reachable_inv w HR) as (_ & HS & _).
  destruct (Reachable_inv w' HR') as (_ & HS' & _).
  unfold snapshot_inv in HS, HS'. rewrite Hsnap in HS.
  destruct HS as (_ & k & Ek & En & Hk).
  destruct (textSnapshot (ctx w')) as [snap'|] eqn:Hsnap'; [|lia].
  destruct HS' as (Hz' & k' & Ek' & En' & _).
  assert (Hstale : forall uid, uid_prefix uid = snapshotId snap ->
            getElementByUid uid w' = (Throw STALE_SNAPSHOT, w')).
  { intros uid Hp. rewrite (getElementByUid_eq w' uid snap' Hsnap' Hz').
    destruct (String.eqb_spec (snapshotId snap') (uid_prefix uid)) as [E|E];
      [|reflexivity].
    rewrite Hp, Ek, Ek' in E. apply of_nat_inj in E. lia. }
  split; [exact Hstale|].
  intros uid node Hu. apply Hstale.
  apply (Reachable_uid_prefix w HR snap uid node Hsnap Hu).
Qed.

(** After a second capture of the sample page uid 1_1 is stale. *)
Lemma superseded_uids_are_stale_witness :
  getElementByUid "1_1" (snd (createTextSnapshot false Sample.captured))
  = (Throw STALE_SNAPSHOT, snd (createTextSnapshot false Sample.captured)).
Proof.
  destruct (superseded_uids_are_stale Sample.captured
              (snd (createTextSnapshot false Sample.captured)) Sample.snapshot1
              Reachable_captured) as (H & _).
  - eapply rtc_l; [apply step_createTextSnapshot | apply rtc_refl].
  - vm_compute. reflexivity.
  - vm_compute. lia.
  - apply H. vm_compute. reflexivity.
Defined.

(** X4: right after a successful capture every uid of the new snapshot
    names its own node, and resolving it gives that node's live element
    or, if the node is detached, the not-found error. *)
Theorem captured_uids_resolve verbose w page rootNode :
  fst (getSelectedPage w) = Return page ->
  page_accessibility_snapshot (browser w) page (negb verbose) = Some rootNode ->
  exists snap,
    textSnapshot (ctx (snd (createTextSnapshot verbose w))) = Some snap
    /\ forall x, List.In x (ts_preorder (root snap)) ->
         getAXNodeByUid (snd (createTextSnapshot verbose w)) (ts_id x) = Some x
         /\ getElementByUid (ts_id x) (snd (createTextSnapshot verbose w))
            = (match resolveNode (browser w) (ts_backend x) with
               | Some handle => Return handle
               | None => Throw NO_SUCH_ELEMENT
               end, snd (createTextSnapshot verbose w)).
Proof.
  intros Hp Ht. rewrite (createTextSnapshot_capture _ _ _ _ Hp Ht).
  eexists. split; [reflexivity|]. simpl. intros x Hx.
  assert (Hl : as_idToNode (snd (assignIds (nextSnapshotId (ctx w)) rootNode
                                          (mkAssign 0 ∅))) !! ts_id x = Some x)
    by (apply assignIds_idToNode; auto).
  split; [exact Hl|].
  erewrite getElementByUid_eq; [|reflexivity|apply assignIds_nonempty].
  simpl. destruct (assignIds_key_prefix _ _ _ _ Hl) as (-> & _).
  rewrite String.eqb_refl, Hl. reflexivity.
Qed.

(** On the sample page the button's uid gives handle 102 and the
    detached text box is not found. *)
Lemma captured_uids_resolve_witness :
  getElementByUid "1_1" Sample.captured = (Return 102, Sample.captured)
  /\ getElementByUid "1_2" Sample.captured = (Throw NO_SUCH_ELEMENT, Sample.captured).
Proof.
  destruct (captured_uids_resolve false Sample.started 10 Sample.tree eq_refl eq_refl)
    as (snap & Hs & H).
  change (textSnapshot (ctx Sample.captured) = Some snap) in Hs.
  assert (Es : snap = Sample.snapshot1).
  { unfold Sample.snapshot1. rewrite Hs. reflexivity. }
  subst snap. split.
  - destruct (H (mkTS "button" (Some "Click me") None [] 2 "1_1" [])) as (_ & E).
    + vm_compute. right. left. reflexivity.
    + exact E.
  - destruct (H (mkTS "textbox" None None [] 3 "1_2" [])) as (_ & E).
    + vm_compute. right. right. left. reflexivity.
    + exact E.
Defined.

(** X5: the snapshot has one node per node of the driver's tree, and
    [idToNode] one entry per node. *)
Theorem captured_map_size verbose w page rootNode :
  fst (getSelectedPage w) = Return page ->
  page_accessibility_snapshot (browser w) page (negb verbose) = Some rootNode ->
  exists snap,
    textSnapshot (ctx (snd (createTextSnapshot verbose w))) = Some snap
    /\ length (ts_preorder (root snap)) = length (ax_preorder rootNode)
    /\ size (idToNode snap) = length (ax_preorder rootNode).
Proof.
  intros Hp Ht. rewrite (createTextSnapshot_capture _ _ _ _ Hp Ht).
  eexists. split; [reflexivity|]. simpl.
  destruct (assignIds_assigned (nextSnapshotId (ctx w)) rootNode (mkAssign 0 ∅))
    as (_ & I & F & _).
  simpl in I.
  set (out := ts_preorder (fst (assignIds (nextSnapshotId (ctx w)) rootNode
                                          (mkAssign 0 ∅)))) in *.
  set (m := as_idToNode (snd (assignIds (nextSnapshotId (ctx w)) rootNode
                                        (mkAssign 0 ∅)))).
  assert (Hlen : length out = length (ax_preorder rootNode)).
  { symmetry. eapply Forall2_length. exact F. }
  split; [exact Hlen|].
  assert (Hdom : dom m = list_to_set (List.map ts_id out)).
  { apply set_eq. intros u. rewrite elem_of_dom, elem_of_list_to_set, list_elem_of_In.
    split.
    - intros [x Hx]. apply assignIds_idToNode in Hx as [Hx <-]. apply in_map, Hx.
    - intros Hu. apply in_map_iff in Hu as (x & <- & Hx).
      exists x. apply assignIds_idToNode. auto. }
  rewrite <- size_dom, Hdom, size_list_to_set.
  - rewrite length_map. exact Hlen.
  - apply NoDup_ListNoDup. rewrite I. apply NoDup_map_uid_of.
Qed.

(** The sample page has five nodes. *)
Lemma captured_map_size_witness :
  size (idToNode Sample.snapshot1) = 5.
Proof.
  destruct (captured_map_size false Sample.started 10 Sample.tree eq_refl eq_refl)
    as (snap & Hs & _ & Hm).
  change (textSnapshot (ctx Sample.captured) = Some snap) in Hs.
  unfold Sample.snapshot1. rewrite Hs. exact Hm.
Defined.

(** X6: in a reachable world a uid that [getAXNodeByUid] finds is never
    stale: [getElementByUid] answers with the element of that very node,
    or not-found if it is detached; and whenever [getElementByUid]
    returns a handle, [getAXNodeByUid] finds the node it came from. *)
Theorem getAXNodeByUid_agrees w uid :
  Reachable w ->
  (forall node, getAXNodeByUid w uid = Some node ->
     ts_id node = uid
     /\ getElementByUid uid w
        = (match resolveNode (browser w) (ts_backend node) with
           | Some handle => Return handle
           | None => Throw NO_SUCH_ELEMENT
           end, w))
  /\ (forall handle, fst (getElementByUid uid w) = Return handle ->
        exists node, getAXNodeByUid w uid = Some node
                     /\ resolveNode (browser w) (ts_backend node) = Some handle).
Proof.
  intros HR. destruct (Reachable_inv w HR) as (_ & HS & _).
  pose proof (Reachable_uid_prefix w HR) as HU.
  unfold getAXNodeByUid, snapshot_inv, uid_prefix_inv in *.
  destruct (textSnapshot (ctx w)) as [snap|] eqn:Hs.
  - destruct HS as (Hz & _). rewrite (getElementByUid_eq w uid snap Hs Hz). split.
    + intros node Hn. destruct (HU snap uid node eq_refl Hn) as (-> & Hid).
      rewrite String.eqb_refl, Hn. auto.
    + intros handle. simpl.
      destruct (String.eqb _ _); [|discriminate].
      destruct (idToNode snap !! uid) as [node|]; [|discriminate].
      destruct (resolveNode (browser w) (ts_backend node)) as [h|] eqn:Er;
        [|discriminate].
      intros [= <-]. eauto.
  - split; [discriminate|].
    intros handle. unfold getElementByUid. run_monad. rewrite Hs. discriminate.
Qed.

(** The button of the sample page. *)
Lemma getAXNodeByUid_agrees_witness :
  getElementByUid "1_1" Sample.captured = (Return 102, Sample.captured).
Proof.
  destruct (getAXNodeByUid_agrees Sample.captured "1_1" Reachable_captured)
    as (H & _).
  destruct (H (mkTS "button" (Some "Click me") None [] 2 "1_1" [])) as (_ & E).
  - vm_compute. reflexivity.
  - exact E.
Defined.

(** ** More on refreshing, selecting and closing *)

Lemma assignPageId_fold_known l c :
  (forall p, List.In p l -> exists i, pageIdMap c !! p = Some i) ->
  fold_left assignPageId l c = c.
Proof.
  induction l as [|p l IH]; intros Hk; simpl; [reflexivity|].
  destruct (Hk p (or_introl eq_refl)) as [i Hi].
  assert (E : assignPageId c p = c) by (unfold assignPageId; rewrite Hi; reflexivity).
  rewrite E. apply IH. intros q Hq. apply Hk. right. exact Hq.
Qed.

Lemma auto_selected_ext w1 w2 :
  selectedPage (ctx w1) = selectedPage (ctx w2) -> pages (ctx w1) = pages (ctx w2) ->
  auto_selected w1 = auto_selected w2.
Proof. unfold auto_selected. intros -> ->. reflexivity. Qed.

Lemma createPagesSnapshot_quiet w :
  auto_selected (refreshed w) = None ->
  createPagesSnapshot w = (Return (pages (ctx (refreshed w))), refreshed w).
Proof.
  unfold createPagesSnapshot, auto_selected. unfold bind at 1, get at 1.
  unfold bind at 1, modify at 1. unfold bind at 1, modify at 1.
  unfold bind at 1, get at 1. fold (refreshed w).
  destruct (selectedPage (ctx (refreshed w))) as [sel|];
    destruct (pages (ctx (refreshed w))) as [|first rest] eqn:Ep; simpl;
    intros Ha; try discriminate Ha;
    try (unfold bind, get, ret; cbv beta iota; rewrite Ep; reflexivity).
  revert Ha.
  match goal with |- context [if ?b then None else _] => destruct b end; simpl;
    [intros _ | discriminate].
  unfold bind, get, ret; cbv beta iota; rewrite Ep; reflexivity.
Qed.

Lemma page_in_In p l : page_in p l = true <-> List.In p l.
Proof.
  unfold page_in. rewrite existsb_exists. split.
  - intros (q & Hq & E). apply Nat.eqb_eq in E. subst. exact Hq.
  - intros H. exists p. split; [exact H | apply Nat.eqb_refl].
Qed.

(** The world after a refresh: what the next refresh would look at. *)
Lemma createPagesSnapshot_settled w :
  let w1 := snd (createPagesSnapshot w) in
  browser_pages (browser w1) = browser_pages (browser w)
  /\ page_url (browser w1) = page_url (browser w)
  /\ options (ctx w1) = options (ctx w)
  /\ pages (ctx w1)
     = List.filter (isVisible (options (ctx w)) (browser w))
         (browser_pages (browser w) (experimentalIncludeAllPages (options (ctx w))))
  /\ (forall p, List.In p (browser_pages (browser w)
                             (experimentalIncludeAllPages (options (ctx w)))) ->
                exists i, pageIdMap (ctx w1) !! p = Some i)
  /\ auto_selected w1 = None.
Proof.
  cbv zeta.
  destruct (createPagesSnapshot_ctx w) as (Ep & Em & _ & Es & _ & _ & _ & Eo).
  destruct (refreshed_ctx w) as (Rp & Rm & _ & Rs & _ & _ & _ & _ & Rb).
  destruct (assignPageId_fold
              (browser_pages (browser w) (experimentalIncludeAllPages (options (ctx w))))
              (ctx w)) as (_ & _ & _ & _ & D).
  assert (Hb : browser_pages (browser (snd (createPagesSnapshot w)))
               = browser_pages (browser w)
               /\ page_url (browser (snd (createPagesSnapshot w)))
                  = page_url (browser w)).
  { rewrite createPagesSnapshot_world.
    destruct (auto_selected (refreshed w)) as [first|].
    - destruct (selectPage_browser_frame first (refreshed w)) as (-> & -> & _).
      rewrite Rb. auto.
    - rewrite Rb. auto. }
  destruct Hb as (Hb1 & Hb2).
  split; [exact Hb1|]. split; [exact Hb2|]. split; [exact Eo|].
  split; [rewrite Ep; exact Rp|]. split; [rewrite Em, Rm; exact D|].
  destruct (auto_selected (refreshed w)) as [first|] eqn:Ea.
  - destruct (auto_selected_listed _ _ Ea) as [rest Hl].
    unfold auto_selected. rewrite Es, Ep, Hl. simpl. rewrite Nat.eqb_refl. reflexivity.
  - rewrite <- Ea. apply auto_selected_ext; [rewrite Es, Rs; reflexivity | exact Ep].
Qed.

Lemma refreshed_fixed w1 :
  (forall p, List.In p (browser_pages (browser w1)
                          (experimentalIncludeAllPages (options (ctx w1)))) ->
             exists i, pageIdMap (ctx w1) !! p = Some i) ->
  pages (ctx w1)
  = List.filter (isVisible (options (ctx w1)) (browser w1))
      (browser_pages (browser w1) (experimentalIncludeAllPages (options (ctx w1)))) ->
  refreshed w1 = w1.
Proof.
  intros Hk Hp. unfold refreshed, with_ctx. simpl.
  rewrite (assignPageId_fold_known _ _ Hk), <- Hp.
  destruct w1 as [c b f l]. simpl. destruct c. reflexivity.
Qed.

(** X7: a refresh that follows a refresh, with nothing changed in the
    browser in between, returns the same list and leaves the world as it
    is: no id is issued, no page is selected anew. *)
Theorem createPagesSnapshot_idempotent w :
  createPagesSnapshot (snd (createPagesSnapshot w))
  = (Return (pages (ctx (snd (createPagesSnapshot w)))), snd (createPagesSnapshot w)).
Proof.
  destruct (createPagesSnapshot_settled w) as (Hb & Hu & Ho & Hp & Hk & Ha).
  set (w1 := snd (createPagesSnapshot w)) in *.
  assert (Hfix : refreshed w1 = w1).
  { apply refreshed_fixed.
    - rewrite Hb, Ho. exact Hk.
    - rewrite Hp, Hb, Ho. unfold isVisible. rewrite Hu. reflexivity. }
  rewrite createPagesSnapshot_quiet; rewrite Hfix; [reflexivity | exact Ha].
Qed.

Lemma refresh_after_close w page :
  in_sync w ->
  pages (ctx (snd (createPagesSnapshot (with_browser (page_close page false) w))))
  = List.filter (fun q => negb (Nat.eqb q page)) (pages (ctx w)).
Proof.
  intros (_ & Hsync).
  destruct (createPagesSnapshot_ctx (with_browser (page_close page false) w))
    as (-> & _).
  destruct (refreshed_ctx (with_browser (page_close page false) w)) as (-> & _).
  simpl. rewrite Hsync. rewrite filter_comm. reflexivity.
Qed.

(** X8: closing the selected page leaves the selection on the closed
    page, so getSelectedPage throws until the next refresh; that refresh
    moves the selection to the first page still listed, which is another
    page. *)
Theorem closePage_selected w pageId page :
  in_sync w ->
  selectedPage (ctx w) = Some page ->
  fst (getPageById pageId w) = Return page ->
  length (pages (ctx w)) <> 1 ->
  fst (closePage pageId w) = Return tt
  /\ getSelectedPage (snd (closePage pageId w))
     = (Throw SELECTED_PAGE_CLOSED, snd (closePage pageId w))
  /\ exists first rest,
       pages (ctx (snd (createPagesSnapshot (snd (closePage pageId w)))))
       = first :: rest
       /\ first <> page
       /\ selectedPage (ctx (snd (createPagesSnapshot (snd (closePage pageId w)))))
          = Some first
       /\ (page_isClosed (browser w) first = false ->
           fst (getSelectedPage
                  (snd (createPagesSnapshot (snd (closePage pageId w)))))
           = Return first).
Proof.
  intros Hsync Hsel Hget Hlen.
  rewrite getPageById_eq in Hget. simpl in Hget.
  destruct (List.find _ _) as [q|] eqn:Ef; [|discriminate].
  injection Hget as ->. rewrite closePage_eq.
  apply Nat.eqb_neq in Hlen. rewrite Hlen, Ef. simpl fst; simpl snd.
  apply find_some in Ef as [Hin _].
  set (w1 := with_browser (page_close page false) w).
  split; [reflexivity|]. split.
  { unfold getSelectedPage, bind, get, throw, ret. simpl. rewrite Hsel.
    rewrite upd_same. reflexivity. }
  pose proof (refresh_after_close w page Hsync) as Hp. fold w1 in Hp.
  destruct Hsync as (Hnd & Hsync).
  assert (Hnd' : List.NoDup (pages (ctx w)))
    by (rewrite Hsync; apply Stdlib_NoDup_filter, Hnd).
  pose proof (length_filter_other page _ Hnd' Hin) as Hl.
  destruct (List.filter (fun q => negb (Nat.eqb q page)) (pages (ctx w)))
    as [|first rest] eqn:EL.
  { exfalso. simpl in Hl. apply Nat.eqb_neq in Hlen. apply Hlen. symmetry. exact Hl. }
  assert (Hfirst : List.In first (List.filter (fun q => negb (Nat.eqb q page))
                                    (pages (ctx w))))
    by (rewrite EL; left; reflexivity).
  apply filter_In in Hfirst as [_ Hne]. apply negb_true_iff, Nat.eqb_neq in Hne.
  assert (Hnotin : page_in page (first :: rest) = false).
  { destruct (page_in page (first :: rest)) eqn:E; [|reflexivity].
    apply page_in_In in E. rewrite <- EL in E. apply filter_In in E as [_ E].
    rewrite Nat.eqb_refl in E. discriminate. }
  destruct (createPagesSnapshot_ctx w1) as (Ep & _ & _ & Es & _).
  destruct (refreshed_ctx w1) as (_ & _ & _ & Rs & _).
  pose proof (auto_selected_cases (refreshed w1)) as Hc.
  rewrite <- Ep, Hp, Rs in Hc.
  change (selectedPage (ctx w1)) with (selectedPage (ctx w)) in Hc.
  rewrite Hsel in Hc. cbv beta iota in Hc. rewrite Hnotin in Hc.
  exists first, rest. split; [exact Hp|]. split; [exact Hne|].
  rewrite Hc in Es. split; [exact Es|].
  intros Hopen. rewrite createPagesSnapshot_world, Hc.
  unfold getSelectedPage, bind, get, throw, ret. cbv beta iota.
  rewrite selectPage_ctx.
  destruct (selectPage_browser_frame first (refreshed w1)) as (_ & _ & -> & _).
  destruct (refreshed_ctx w1) as (_ & _ & _ & _ & _ & _ & _ & _ & ->).
  simpl. rewrite upd_other by exact Hne. rewrite Hopen. reflexivity.
Qed.

(** In the started sample session page 10 is selected and has id 1;
    closing it moves the selection to page 12 at the refresh. *)
Lemma closePage_selected_witness :
  getSelectedPage (snd (closePage 1 Sample.started))
  = (Throw SELECTED_PAGE_CLOSED, snd (closePage 1 Sample.started))
  /\ selectedPage (ctx (snd (createPagesSnapshot (snd (closePage 1 Sample.started)))))
     = Some 12.
Proof.
  destruct (closePage_selected Sample.started 1 10 in_sync_started eq_refl eq_refl)
    as (_ & H1 & first & rest & Hp & _ & Hs & _).
  - discriminate.
  - split; [exact H1|]. rewrite Hs. f_equal.
    assert (E : pages (ctx (snd (createPagesSnapshot (snd (closePage 1 Sample.started)))))
                = [12]) by reflexivity.
    rewrite E in Hp. congruence.
Defined.

(** ** Dialogs, new pages and timeouts *)

(** X9: a pending dialog is touched by nothing but a dialog event, which
    replaces it, and clearDialog, which drops it: selecting, refreshing,
    closing, capturing and saving leave it pending. *)
Theorem dialog_persists w :
  (forall page, getDialog (snd (selectPage page w)) = getDialog w)
  /\ getDialog (snd (createPagesSnapshot w)) = getDialog w
  /\ (forall pageId, getDialog (snd (closePage pageId w)) = getDialog w)
  /\ (forall verbose, getDialog (snd (createTextSnapshot verbose w)) = getDialog w)
  /\ (forall data filename, getDialog (snd (saveFile data filename w)) = getDialog w)
  /\ (forall d d', getDialog (snd (dialogHandler d' (snd (dialogHandler d w)))) = Some d')
  /\ (forall d, getDialog (snd (clearDialog (snd (dialogHandler d w)))) = None).
Proof.
  unfold getDialog. split; [|split; [|split; [|split; [|split; [|split]]]]].
  - intros page. rewrite selectPage_ctx. reflexivity.
  - destruct (createPagesSnapshot_ctx w) as (_ & _ & _ & _ & _ & Ed & _). exact Ed.
  - intros pageId. destruct (closePage_frame pageId w) as (-> & _). reflexivity.
  - intros verbose. destruct (createTextSnapshot_cases verbose w)
      as [->|(page & rootNode & Hp & Ht)]; [reflexivity|].
    rewrite (createTextSnapshot_capture _ _ _ _ Hp Ht). reflexivity.
  - intros data filename. destruct (saveFile_frame data filename w) as (-> & _).
    reflexivity.
  - reflexivity.
  - reflexivity.
Qed.

Lemma newPage_eq driver_newPage w :
  newPage driver_newPage w
  = let w0 := mkWorld (ctx w) (snd (driver_newPage (browser w))) (fs w) (logged w) in
    match createPagesSnapshot w0 with
    | (Return _, w1) =>
        match selectPage (fst (driver_newPage (browser w))) w1 with
        | (Return _, w2) => (Return (fst (driver_newPage (browser w))), w2)
        | (Throw e, w2) => (Throw e, w2)
        end
    | (Throw e, w1) => (Throw e, w1)
    end.
Proof.
  unfold newPage. unfold bind at 1, get at 1.
  destruct (driver_newPage (browser w)) as [page b]. simpl fst; simpl snd.
  unfold bind at 1, modify at 1. unfold with_browser. cbv zeta.
  unfold bind at 1. destruct (createPagesSnapshot _) as [[l|e] w1]; [|reflexivity].
  unfold bind, ret. destruct (selectPage page w1) as [[[]|e] w2]; reflexivity.
Qed.

(** X10: newPage ends in a reachable world; when it returns, it returns
    the page the driver opened, that page is open and selected, whether
    or not the visibility filter lists it, and the dialog handler sits
    on it alone. *)
Theorem newPage_selects w driver_newPage :
  Reachable w ->
  (forall p, page_dialogListeners (snd (driver_newPage (browser w))) p
             = page_dialogListeners (browser w) p) ->
  Reachable (snd (newPage driver_newPage w))
  /\ forall p, fst (newPage driver_newPage w) = Return p ->
       p = fst (driver_newPage (browser w))
       /\ selectedPage (ctx (snd (newPage driver_newPage w))) = Some p
       /\ page_isClosed (browser (snd (newPage driver_newPage w))) p = false
       /\ page_dialogListeners (browser (snd (newPage driver_newPage w))) p = 1
       /\ (forall q, q <> p ->
             page_dialogListeners (browser (snd (newPage driver_newPage w))) q = 0).
Proof.
  intros HR Hb. rewrite newPage_eq. cbv zeta.
  set (page := fst (driver_newPage (browser w))).
  set (w0 := mkWorld (ctx w) (snd (driver_newPage (browser w))) (fs w) (logged w)).
  assert (HR0 : Reachable w0) by (apply reach_environment; assumption).
  pose proof (reach_createPagesSnapshot w0 HR0) as HR1.
  destruct (createPagesSnapshot w0) as [[l|e] w1] eqn:E1; simpl in HR1.
  2:{ split; [exact HR1 | discriminate]. }
  pose proof (reach_selectPage w1 page HR1) as HR2.
  pose proof (selectPage_ctx page w1) as Hc.
  pose proof (selectPage_result page w1) as Hres.
  destruct (selectPage_browser_frame page w1) as (_ & _ & Hcl & _).
  destruct (selectPage page w1) as [[[]|e] w2] eqn:E2; simpl in *.
  2:{ split; [exact HR2 | discriminate]. }
  split; [exact HR2|]. intros p [= <-].
  destruct (Reachable_inv w2 HR2) as (HL & _).
  unfold listeners_inv, isPageSelected in HL. rewrite Hc in HL. simpl in HL.
  split; [reflexivity|]. split; [rewrite Hc; reflexivity|]. split; [|split].
  - rewrite Hcl. destruct (page_isClosed (browser w1) page); [discriminate | reflexivity].
  - rewrite (HL page), Nat.eqb_refl. reflexivity.
  - intros q Hq. rewrite (HL q).
    destruct (Nat.eqb_spec page q); [congruence | reflexivity].
Qed.

(** The driver opens page 13, a DevTools window, in the started sample
    session: it is not listed, yet selected. *)
Lemma newPage_selects_witness :
  let open := fun b : Browser =>
    (13, mkBrowser (fun _ => [10; 11; 12; 13])
           (fun p => if Nat.eqb p 13 then "devtools://devtools/bundled/inspector.html"
                     else page_url b p)
           (page_isClosed b) (page_dialogListeners b)
           (page_focusEmulation b) (page_emulateFocusFails b) (page_defaultTimeout b)
           (page_defaultNavigationTimeout b) (page_accessibility_snapshot b)
           (resolveNode b) (closeRequests b)) in
  selectedPage (ctx (snd (newPage open Sample.started))) = Some 13
  /\ pages (ctx (snd (newPage open Sample.started))) = [10; 12].
Proof.
  intros open.
  destruct (newPage_selects Sample.started open Reachable_started) as (_ & H).
  - intros p. reflexivity.
  - destruct (H 13 eq_refl) as (_ & Hs & _). split; [exact Hs | reflexivity].
Defined.

Lemma selectPage_eq page w :
  selectPage page w
  = let b1 := match selectedPage (ctx w) with
              | Some old => page_off_dialog old (browser w)
              | None => browser w
              end in
    let w1 := match selectedPage (ctx w) with
              | Some old =>
                  snd (emulateFocusedPage_logged old false
                         "Error turning off focused page emulation"
                         (mkWorld (ctx w) b1 (fs w) (logged w)))
              | None => w
              end in
    let w2 := with_browser (page_on_dialog page)
                (with_ctx (set_selectedPage (Some page)) w1) in
    if page_isClosed (browser w) page then (Throw SELECTED_PAGE_CLOSED, w2)
    else emulateFocusedPage_logged page true "Error turning on focused page emulation"
           (with_browser (page_setDefaultNavigationTimeout page NAVIGATION_TIMEOUT)
              (with_browser (page_setDefaultTimeout page DEFAULT_TIMEOUT) w2)).
Proof.
  unfold selectPage. run_monad.
  destruct (selectedPage (ctx w)) as [old|]; simpl;
    [destruct (page_emulateFocusFails (browser w) old); simpl|];
    destruct (page_isClosed (browser w) page); simpl; try reflexivity;
    destruct (page_emulateFocusFails (browser w) page); reflexivity.
Qed.

(** X11: selectPage moves the selection before it looks at the page.  On
    an open page it returns with both default timeouts set, so that
    getNavigationTimeout answers 10000; on a closed page it throws, and
    the closed page is the selection all the same. *)
Theorem selectPage_outcome page w :
  selectedPage (ctx (snd (selectPage page w))) = Some page
  /\ if page_isClosed (browser w) page
     then fst (selectPage page w) = Throw SELECTED_PAGE_CLOSED
          /\ getSelectedPage (snd (selectPage page w))
             = (Throw SELECTED_PAGE_CLOSED, snd (selectPage page w))
          /\ page_defaultTimeout (browser (snd (selectPage page w)))
             = page_defaultTimeout (browser w)
          /\ page_defaultNavigationTimeout (browser (snd (selectPage page w)))
             = page_defaultNavigationTimeout (browser w)
     else fst (selectPage page w) = Return tt
          /\ getSelectedPage (snd (selectPage page w))
             = (Return page, snd (selectPage page w))
          /\ getNavigationTimeout (snd (selectPage page w))
             = (Return (Some 10000%N), snd (selectPage page w))
          /\ page_defaultTimeout (browser (snd (selectPage page w))) page
             = Some 5000%N.
Proof.
  split; [rewrite selectPage_ctx; reflexivity|].
  rewrite selectPage_eq. cbv zeta.
  unfold getNavigationTimeout, getSelectedPage, emulateFocusedPage_logged, logger,
    bind, get, modify, ret, throw.
  destruct (page_isClosed (browser w) page) eqn:Hcl.
  - destruct (selectedPage (ctx w)) as [old|]; simpl;
      [destruct (page_emulateFocusFails (browser w) old); simpl|];
      rewrite Hcl; auto 10.
  - destruct (selectedPage (ctx w)) as [old|]; simpl;
      [destruct (page_emulateFocusFails (browser w) old); simpl|];
      destruct (page_emulateFocusFails (browser w) page); simpl;
      rewrite ?Hcl; (split; [reflexivity|]); (split; [reflexivity|]);
      split; simpl; rewrite ?upd_same; reflexivity.
Qed.

(** ** Saving files *)

(** X12: saveFile touches neither the session nor the browser.  When the
    write succeeds it returns the name it was given, the data is the
    content of the resolved path, no other file changes and nothing is
    logged; when the write fails no file changes, the failure is logged
    once, and the error thrown carries it as cause. *)
Theorem saveFile_outcome data filename w :
  ctx (snd (saveFile data filename w)) = ctx w
  /\ browser (snd (saveFile data filename w)) = browser w
  /\ match fs_writeFails (fs w) (path_resolve (fs w) filename) with
     | None =>
         fst (saveFile data filename w) = Return filename
         /\ fs_files (fs (snd (saveFile data filename w)))
              !! path_resolve (fs w) filename = Some data
         /\ (forall p, p <> path_resolve (fs w) filename ->
               fs_files (fs (snd (saveFile data filename w))) !! p
               = fs_files (fs w) !! p)
         /\ logged (snd (saveFile data filename w)) = logged w
     | Some cause =>
         fst (saveFile data filename w)
         = Throw (Err "Could not save a screenshot to a file" (Some cause))
         /\ fs (snd (saveFile data filename w)) = fs w
         /\ logged (snd (saveFile data filename w))
            = (logged w ++ [[LogError cause]])%list
     end.
Proof.
  destruct (saveFile_frame data filename w) as (Hc & Hb).
  split; [exact Hc|]. split; [exact Hb|].
  unfold saveFile. run_monad.
  destruct (fs_writeFails (fs w) (path_resolve (fs w) filename)) as [cause|]; simpl.
  - auto.
  - split; [reflexivity|]. split; [apply lookup_insert_eq|]. split; [|reflexivity].
    intros p Hp. apply lookup_insert_ne. congruence.
Qed.

Lemma getExtensionFromMimeType_cases mimeType :
  match getExtensionFromMimeType mimeType with
  | Return ext =>
      mimeType = "image/" +:+ ext /\ List.In ext ["png"; "jpeg"; "webp"]
  | Throw e =>
      ~ List.In mimeType ["image/png"; "image/jpeg"; "image/webp"]
      /\ e = Err ("No mapping for Mime type " +:+ mimeType +:+ ".") None
  end.
Proof.
  unfold getExtensionFromMimeType.
  destruct (String.eqb_spec mimeType "image/png") as [->|H1];
    [split; [reflexivity | simpl; auto]|].
  destruct (String.eqb_spec mimeType "image/jpeg") as [->|H2];
    [split; [reflexivity | simpl; auto]|].
  destruct (String.eqb_spec mimeType "image/webp") as [->|H3];
    [split; [reflexivity | simpl; auto]|].
  split; [|reflexivity]. simpl. intuition congruence.
Qed.

(** X13: getExtensionFromMimeType answers for the three image types
    only, with the part after [image/]; for any other type it throws an
    error that names the type. *)
Theorem getExtensionFromMimeType_spec mimeType :
  (forall ext, getExtensionFromMimeType mimeType = Return ext <->
               mimeType = "image/" +:+ ext /\ List.In ext ["png"; "jpeg"; "webp"])
  /\ (forall e, getExtensionFromMimeType mimeType = Throw e ->
        ~ List.In mimeType ["image/png"; "image/jpeg"; "image/webp"]
        /\ e = Err ("No mapping for Mime type " +:+ mimeType +:+ ".") None).
Proof.
  pose proof (getExtensionFromMimeType_cases mimeType) as H. split.
  - intros ext. split.
    + intros E. rewrite E in H. exact H.
    + intros (-> & Hin). simpl in Hin.
      destruct Hin as [<-|[<-|[<-|[]]]]; reflexivity.
  - intros e E. rewrite E in H. exact H.
Qed.


(** ** Waiting for text *)

(** X15: the timeout of a wait.  The schema's transform lets no negative
    value through; waitForTextOnPage, given the transformed value, waits
    on a race of an [aria/] and a [text/] selector per frame of the
    selected page, in frame order, and sets a timeout on it exactly when
    the value given was positive; without a usable selected page it
    throws what getSelectedPage throws and does not wait. *)
Theorem waitForTextOnPage_timeout {A} page_frames (wait : LocatorSpec -> M A)
  text value w :
  (forall t, timeout_transform value = Some t -> (0 <= t)%Z)
  /\ match fst (getSelectedPage w) with
     | Return page =>
         waitForTextOnPage page_frames wait text (timeout_transform value) w
         = wait (mkLocator
                   (flat_map (fun frame => [(frame, "aria/" +:+ text);
                                            (frame, "text/" +:+ text)])
                             (page_frames page))
                   (match value with
                    | Some v => if (0 <? v)%Z then Some v else None
                    | None => None
                    end)) w
     | Throw e =>
         waitForTextOnPage page_frames wait text (timeout_transform value) w
         = (Throw e, w)
     end.
Proof.
  split.
  - intros t. unfold timeout_transform. destruct value as [v|]; [|discriminate].
    destruct (Z.eqb_spec v 0); simpl.
    + intros [= <-]. lia.
    + destruct (Z.leb_spec v 0); [discriminate|]. intros [= <-]. lia.
  - unfold waitForTextOnPage.
    destruct (fst (getSelectedPage w)) as [page|e] eqn:Hp.
    2:{ apply bind_Throw. rewrite getSelectedPage_eq, Hp. reflexivity. }
    rewrite (bind_Return _ _ w page w)
      by (rewrite getSelectedPage_eq, Hp; reflexivity).
    cbv zeta. f_equal. unfold timeout_transform.
    destruct value as [v|]; [|reflexivity].
    destruct (Z.eqb_spec v 0) as [->|Hv]; simpl; [reflexivity|].
    destruct (Z.leb_spec v 0), (Z.ltb_spec 0 v); try lia; [reflexivity|].
    apply Z.eqb_neq in Hv. rewrite Hv. reflexivity.
Qed.

(** ** handle without side requests *)

(** X16: a response that asked for neither pages nor snapshot is
    finalized without touching the world; with no lines, no images and
    no pending dialog the result is the header alone. *)
Theorem handle_plain f r toolName w :
  includePages r = false ->
  snapshotParams r = None ->
  handle f r toolName w = (Return (format r toolName w None), w)
  /\ (getDialog w = None -> textResponseLines r = [] -> images r = [] ->
      fst (handle f r toolName w)
      = Return [TextContent ("# " +:+ toolName +:+ " response")]).
Proof.
  intros Hi Hs.
  assert (E : handle f r toolName w = (Return (format r toolName w None), w)).
  { unfold handle, handle_snapshot. rewrite Hi, Hs. reflexivity. }
  split; [exact E|]. intros Hd Hl Him. rewrite E. simpl.
  unfold format. rewrite Hd, Hi, Hl, Him. reflexivity.
Qed.

(** The fresh response of the test suite. *)
Lemma handle_plain_witness :
  handle Sample.render new_McpResponse "test" Sample.started
  = (Return [TextContent "# test response"], Sample.started).
Proof.
  destruct (handle_plain Sample.render new_McpResponse "test" Sample.started
              eq_refl eq_refl) as (E & _).
  rewrite E. reflexivity.
Defined.



(** X18: after a refresh that lists at least one page, the selected page
    is one of the listed pages. *)
Theorem refresh_selection_listed w :
  pages (ctx (snd (createPagesSnapshot w))) <> [] ->
  exists sel,
    selectedPage (ctx (snd (createPagesSnapshot w))) = Some sel
    /\ List.In sel (pages (ctx (snd (createPagesSnapshot w)))).
Proof.
  intros Hne. destruct (createPagesSnapshot_settled w) as (_ & _ & _ & _ & _ & Ha).
  pose proof (auto_selected_cases (snd (createPagesSnapshot w))) as Hc.
  destruct (pages (ctx (snd (createPagesSnapshot w)))) as [|first rest] eqn:Ep;
    [congruence|].
  destruct (selectedPage (ctx (snd (createPagesSnapshot w)))) as [sel|];
    [|congruence].
  exists sel. split; [reflexivity|].
  rewrite Ha in Hc. apply page_in_In.
  destruct (page_in sel (first :: rest)); [reflexivity | discriminate].
Qed.

(** The started sample session: page 10 is selected and listed. *)
Lemma refresh_selection_listed_witness :
  exists sel, selectedPage (ctx Sample.started) = Some sel
              /\ List.In sel (pages (ctx Sample.started)).
Proof.
  apply (refresh_selection_listed
           (fresh_world Sample.opts Sample.chrome Sample.disk)).
  discriminate.
Defined.

(** X19: a response that asks for a snapshot while no page is selected,
    or the selected page is closed, is not assembled: handle throws what
    getSelectedPage throws and, no refresh being asked, changes
    nothing. *)
Theorem handle_without_page f r toolName w params e :
  includePages r = false ->
  snapshotParams r = Some params ->
  fst (getSelectedPage w) = Throw e ->
  handle f r toolName w = (Throw e, w).
Proof.
  intros Hi Hs Hp. unfold handle, handle_snapshot. rewrite Hi, Hs.
  rewrite (bind_Return _ _ w tt w) by reflexivity.
  rewrite bind_assoc.
  apply bind_Throw, createTextSnapshot_throws, Hp.
Qed.

(** Before any page is selected, in a session that saw only a DevTools
    window. *)
Lemma handle_without_page_witness :
  fst (handle Sample.render (includeSnapshot None new_McpResponse) "take_snapshot"
         (snd (createPagesSnapshot
                 (fresh_world Sample.opts Sample.devtools_only Sample.disk))))
  = Throw NO_PAGE_SELECTED.
Proof.
  rewrite (handle_without_page Sample.render (includeSnapshot None new_McpResponse)
             "take_snapshot"
             (snd (createPagesSnapshot
                     (fresh_world Sample.opts Sample.devtools_only Sample.disk)))
             (mkSnapshotParams (Some false) None) NO_PAGE_SELECTED
             eq_refl eq_refl eq_refl).
  reflexivity.
Defined.
